(** * ansi.js: the cursor controller of [lib/cursor.js]

    A shallow embedding of the [Cursor] object: its constructor, the raw and
    the gated write path, the buffering protocol, the methods generated from
    the [consts] tables and the compound operations [move], [erase],
    [delete], [insert], [save] and [restore].

    JavaScript mutates [this]; here every method takes the controller's state
    and gives back the state it leaves behind.  Every method of the source
    ends in [return this] (directly, or by returning the result of another
    method of [this]), so a normal return is [Ok c'] with [c'] the state of
    the returned controller, and a thrown exception is [Throw e c'] with
    [c'] the state the controller is left in at the throw. *)

From Stdlib Require Import String Ascii List ZArith QArith Qround Bool Lia.
From Stdlib Require Import DecimalString.
Import ListNotations.
Close Scope Q_scope.
Open Scope list_scope.
Open Scope string_scope.

(** ** JavaScript values *)

(** A number is NaN, an infinity or a finite value.  Finite doubles are
    rationals; the operations the source applies to them (unary minus,
    comparison with zero, [Math.floor]) are exact on doubles, so they are
    computed on the rational.  The two zeros are not told apart: they compare
    equal, are both falsy and both print as "0". *)
Inductive number : Type :=
| NaN
| Infinity (negative : bool)
| Finite (q : Q).

(** The primitive values a caller can pass to the controller's methods. *)
Inductive value : Type :=
| VUndefined
| VNull
| VBool (b : bool)
| VNumber (n : number)
| VString (s : string).

Definition num (z : Z) : value := VNumber (Finite (inject_Z z)).

Definition is_integer (q : Q) : bool :=
  (Qnum q mod Zpos (Qden q) =? 0)%Z.

Definition decimal (z : Z) : string := NilZero.string_of_int (Z.to_int z).

Definition Qltb (a b : Q) : bool := negb (Qle_bool b a).

(** A string is the sequence of its UTF-8 bytes.  [is_ascii] tells the bytes
    that are ASCII characters. *)
Definition is_ascii (a : ascii) : bool := (nat_of_ascii a <? 128)%nat.

(** [String.prototype.toUpperCase] on an ASCII character. *)
Definition toUpperCase (a : ascii) : ascii :=
  let n := nat_of_ascii a in
  if (97 <=? n)%nat && (n <=? 122)%nat then ascii_of_nat (n - 32) else a.

(** [str.charAt(0).toUpperCase() + str.substring(1)], with [upper] for what
    that is on a string whose first character is not ASCII. *)
Definition ucFirst_by (upper : string -> string) (str : string) : string :=
  match str with
  | EmptyString => ""
  | String a rest => if is_ascii a then String (toUpperCase a) rest else upper str
  end.

(** The engine's Unicode case mapping, as far as [ucFirst] needs it:
    [upper_first str] is [str] with its first character upper-cased, for a
    [str] that starts outside ASCII.  Upper-casing a character gives neither
    nothing nor '$' nor '^', and leaves alone what it has produced. *)
Record case_mapping : Type := mk_case_mapping {
  upper_first : string -> string;
  upper_first_proper : forall a rest,
    is_ascii a = false ->
    upper_first (String a rest) <> ""
    /\ upper_first (String a rest) <> "$"
    /\ upper_first (String a rest) <> "^";
  upper_first_stable : forall a rest,
    is_ascii a = false ->
    ucFirst_by upper_first (upper_first (String a rest))
    = upper_first (String a rest)
}.

(** The number of newline characters of a written payload. *)
Fixpoint count_newlines (s : string) : nat :=
  match s with
  | EmptyString => 0
  | String a rest =>
      (if Ascii.eqb a "010"%char then 1 else 0) + count_newlines rest
  end.

(** [!!v] *)
Definition truthy (v : value) : bool :=
  match v with
  | VUndefined | VNull => false
  | VBool b => b
  | VNumber NaN => false
  | VNumber (Infinity _) => true
  | VNumber (Finite q) => negb (Qeq_bool q 0%Q)
  | VString s => negb (s =? "")
  end.

(** [a === b] *)
Definition strict_eq (a b : value) : bool :=
  match a, b with
  | VUndefined, VUndefined => true
  | VNull, VNull => true
  | VBool x, VBool y => Bool.eqb x y
  | VNumber (Finite x), VNumber (Finite y) => Qeq_bool x y
  | VNumber (Infinity x), VNumber (Infinity y) => Bool.eqb x y
  | VString x, VString y => (x =? y)
  | _, _ => false
  end.

(** ** The stream and the controller *)

(** The underlying stream is an external collaborator: it records the calls
    of its [write] (each with its argument list), the events emitted on it,
    and carries its [isTTY] property. *)
Record Stream : Type := mkStream {
  written : list (list value);
  emitted : list (string * value);
  isTTY : value
}.

(** The fields the constructor sets on [this], and [events]: the
    notifications the controller's observers have received, the error
    channel of the spec. *)
Record Cursor : Type := mkCursor {
  stream : Stream;
  enabled : bool;
  buffering : bool;
  _buffer : list (list value);
  bold : bool;
  italic : bool;
  inverse : bool;
  underline : bool;
  newlines : nat;
  events : list (string * string)
}.

Inductive error : Type :=
| Error (message : string)
| TypeError (message : string).

Inductive result : Type :=
| Ok (c : Cursor)
| Throw (e : error) (c : Cursor).

Definition bind (r : result) (k : Cursor -> result) : result :=
  match r with
  | Ok c => k c
  | Throw e c => Throw e c
  end.

Notation "r >>= k" := (bind r k) (at level 50, left associativity).

Definition set_enabled (b : bool) (c : Cursor) : Cursor :=
  mkCursor (stream c) b (buffering c) (_buffer c)
           (bold c) (italic c) (inverse c) (underline c) (newlines c) (events c).

Definition set_buffering (b : bool) (c : Cursor) : Cursor :=
  mkCursor (stream c) (enabled c) b (_buffer c)
           (bold c) (italic c) (inverse c) (underline c) (newlines c) (events c).

Definition set_buffer (l : list (list value)) (c : Cursor) : Cursor :=
  mkCursor (stream c) (enabled c) (buffering c) l
           (bold c) (italic c) (inverse c) (underline c) (newlines c) (events c).

(** Modelled from the spec: [lib/newline.js] is not among the sources.  The
    notifier wraps the stream so that each newline character written raises
    one [newline] event, and the listener the constructor subscribes
    increments [newlines] once per event. *)
Definition newline_events (args : list value) : nat :=
  match args with
  | VString s :: _ => count_newlines s
  | _ => 0
  end.

(** [this.stream.write.apply(this.stream, arguments)] *)
Definition stream_write (args : list value) (c : Cursor) : Cursor :=
  mkCursor (mkStream (written (stream c) ++ [args])
                     (emitted (stream c)) (isTTY (stream c)))
           (enabled c) (buffering c) (_buffer c)
           (bold c) (italic c) (inverse c) (underline c)
           (newlines c + newline_events args) (events c).

(** [this.stream.emit(name, payload)] *)
Definition stream_emit (name : string) (payload : value) (c : Cursor) : Cursor :=
  mkCursor (mkStream (written (stream c))
                     (emitted (stream c) ++ [(name, payload)])
                     (isTTY (stream c)))
           (enabled c) (buffering c) (_buffer c)
           (bold c) (italic c) (inverse c) (underline c)
           (newlines c) (events c).

(** [this.emit(name, new Error(message))]: the constructor sets no [emit]
    on the controller and [lib/cursor.js] puts none on the prototype, so the
    call is a call of [undefined]: it throws, and no observer is notified. *)
Definition emit (name message : string) (c : Cursor) : result :=
  Throw (TypeError "this.emit is not a function") c.

(** ** Construction *)

(** What the constructor is given as [stream]: a primitive, or an object (a
    function when [callable]) with the properties the constructor reads. *)
Record object : Type := mkObject {
  callable : bool;
  write_is_function : bool;
  on_is_function : bool;
  state : Stream
}.

Inductive stream_arg : Type :=
| Primitive (v : value)
| Object (o : object).

(** What it is given as [options]: a primitive ([undefined] when the argument
    is left out), or an object; a property the object does not have reads as
    [undefined]. *)
Record options_object : Type := mkOptions {
  opt_enabled : value;
  opt_buffering : value
}.

Inductive options_arg : Type :=
| OptPrimitive (v : value)
| OptObject (o : options_object).

Inductive constructed : Type :=
| New (c : Cursor)
| Raised (e : error).

Definition typeof (v : value) : string :=
  match v with
  | VUndefined => "undefined"
  | VNull => "object"
  | VBool _ => "boolean"
  | VNumber _ => "number"
  | VString _ => "string"
  end.

Definition typeof_stream (s : stream_arg) : string :=
  match s with
  | Primitive v => typeof v
  | Object o => if callable o then "function" else "object"
  end.

(** [typeof stream.write]: reading a property of [null] or [undefined]
    throws, and no other primitive has a [write]. *)
Definition typeof_stream_write (s : stream_arg) : error + string :=
  match s with
  | Primitive VNull =>
      inl (TypeError "Cannot read properties of null (reading 'write')")
  | Primitive VUndefined =>
      inl (TypeError "Cannot read properties of undefined (reading 'write')")
  | Primitive _ => inr "undefined"
  | Object o => inr (if write_is_function o then "function" else "undefined")
  end.

(** [options && options.field] *)
Definition options_and (options : options_arg) (field : options_object -> value)
  : value :=
  match options with
  | OptPrimitive v => if truthy v then VUndefined else v
  | OptObject o => field o
  end.

Definition invalid_stream : error :=
  Error "A valid Stream instance must be passed in.".

Definition new_Cursor (stream : stream_arg) (options : options_arg)
  : constructed :=
  if negb (typeof_stream stream =? "object") then Raised invalid_stream else
  match typeof_stream_write stream with
  | inl e => Raised e
  | inr t =>
      if negb (t =? "function") then Raised invalid_stream else
      match stream with
      | Primitive _ => Raised invalid_stream (* no primitive gets here *)
      | Object o =>
          let enabled := options_and options opt_enabled in
          let enabled :=
            if typeof enabled =? "undefined" then isTTY (state o) else enabled in
          let enabled := truthy enabled in
          let buffering := truthy (options_and options opt_buffering) in
          if on_is_function o
          then New (mkCursor (state o) enabled buffering []
                             false false false false 0 [])
          else Raised (TypeError "stream.on is not a function")
      end
  end.

(** The stream argument has a [write] that is a function. *)
Definition exposes_write (s : stream_arg) : bool :=
  match s with
  | Primitive _ => false
  | Object o => write_is_function o
  end.

(** [stream.isTTY] *)
Definition stream_isTTY (s : stream_arg) : value :=
  match s with
  | Primitive _ => VUndefined
  | Object o => isTTY (state o)
  end.

(** ** The constants of [lib/consts.js] *)

(** [lib/consts.js] is not among the sources: its exports are taken as given.
    A table is the list of its keys with their values, in key order. *)
Module consts.

Record codes_t : Type := mkCodes {
  saveCursor : value;
  savePosition : value;
  restoreCursor : value;
  restorePosition : value
}.

Record t : Type := mk {
  prefix : string;
  codes : codes_t;
  actions : list (string * value);
  movements : list (string * value);
  beep : value
}.

End consts.

Fixpoint lookup (name : string) (table : list (string * value)) : option value :=
  match table with
  | [] => None
  | (key, v) :: rest => if key =? name then Some v else lookup name rest
  end.

(** ** Sample data

    A table in the shape of [lib/consts.js] and a terminal-like stream, to
    run the model on concrete inputs. *)

Definition ESC : string := String "027"%char "".

Definition sample_consts : consts.t :=
  consts.mk
    (ESC ++ "[")
    (consts.mkCodes (VString (ESC ++ "7")) (VString (ESC ++ "[s"))
                    (VString (ESC ++ "8")) (VString (ESC ++ "[u")))
    [("eraseRight", VString "K"); ("eraseLeft", VString "1K");
     ("eraseScreen", VString "2J"); ("hide", VString "?25l")]
    [("moveUp", VString "A"); ("moveDown", VString "B");
     ("forward", VString "C"); ("backward", VString "D");
     ("goto", VString "H"); ("deleteLine", VString "M")]
    (VString (String "007"%char "")).

(** A case mapping that leaves the characters outside ASCII as they are.
    The sample runs below stay on ASCII names. *)
Lemma sample_upper_proper (a : ascii) (rest : string) :
  is_ascii a = false ->
  String a rest <> "" /\ String a rest <> "$" /\ String a rest <> "^".
Proof.
  intros Ha. split; [discriminate |].
  split; intros H; inversion H; subst; discriminate Ha.
Qed.

Lemma sample_upper_stable (a : ascii) (rest : string) :
  is_ascii a = false ->
  ucFirst_by (fun s => s) (String a rest) = String a rest.
Proof.
  intros Ha. simpl. rewrite Ha. reflexivity.
Qed.

Definition sample_case_mapping : case_mapping :=
  mk_case_mapping (fun s => s) sample_upper_proper sample_upper_stable.

(** A string is read as a number only when it is empty (0); a fraction is
    not printed.  The sample runs below stay on integers. *)
Definition sample_StringToNumber (s : string) : number :=
  if s =? "" then Finite 0%Q else NaN.

Definition sample_FractionToString (q : Q) : string := "?".

Definition tty : object :=
  mkObject false true true (mkStream [] [] (VBool true)).

Definition no_options : options_arg := OptPrimitive VUndefined.

(** The controller [new Cursor(tty)] returns. *)
Definition sample_cursor : Cursor :=
  mkCursor (mkStream [] [] (VBool true)) true false []
           false false false false 0 [].

(** A function object that carries a [write] method. *)
Definition callable_writer : object :=
  mkObject true true true (mkStream [] [] (VBool true)).

(** [sample_cursor] after [buffer()]. *)
Definition sample_buffering : Cursor :=
  mkCursor (mkStream [] [] (VBool true)) true true []
           false false false false 0 [].

(** [sample_cursor] after [buffer()] and [write('a', 'utf8')]. *)
Definition sample_buffered : Cursor :=
  mkCursor (mkStream [] [] (VBool true)) true true
           [[VString "a"; VString "utf8"]]
           false false false false 0 [].

(** [sample_buffered] after a [flush()] that threw. *)
Definition sample_stale : Cursor :=
  mkCursor (mkStream [] [] (VBool true)) true false
           [[VString "a"; VString "utf8"]]
           false false false false 0 [].

(** [new Cursor(tty, {enabled: false})] *)
Definition sample_disabled : Cursor :=
  mkCursor (mkStream [] [] (VBool true)) false false []
           false false false false 0 [].

Section Controller.

(** What the engine does outside the repository's code: reading a string as
    a number ([Number(s)]), and printing a finite number that is not an
    integer of magnitude at most 2^53 (shortest round-trip digits, padded
    with zeros or in exponent notation). *)
Variable StringToNumber : string -> number.
Variable FractionToString : Q -> string.

(** The exports of [lib/consts.js], under the names [lib/cursor.js] gives
    them. *)
Variable K : consts.t.

(** The engine's case mapping outside ASCII. *)
Variable Upper : case_mapping.

Local Abbreviation prefix := (consts.prefix K).
Local Abbreviation codes := (consts.codes K).
Local Abbreviation actions := (consts.actions K).
Local Abbreviation movements := (consts.movements K).

Definition ToNumber (v : value) : number :=
  match v with
  | VUndefined => NaN
  | VNull => Finite 0%Q
  | VBool true => Finite 1%Q
  | VBool false => Finite 0%Q
  | VNumber n => n
  | VString s => StringToNumber s
  end.

(** [Number::toString]: every integer of magnitude at most 2^53 is a double
    and prints as its decimal digits; the other finite numbers are the
    engine's to print. *)
Definition NumberToString (n : number) : string :=
  match n with
  | NaN => "NaN"
  | Infinity false => "Infinity"
  | Infinity true => "-Infinity"
  | Finite q =>
      if is_integer q && (Z.abs (Qfloor q) <=? 2 ^ 53)%Z
      then decimal (Qfloor q)
      else FractionToString q
  end.

Definition ToString (v : value) : string :=
  match v with
  | VUndefined => "undefined"
  | VNull => "null"
  | VBool true => "true"
  | VBool false => "false"
  | VNumber n => NumberToString n
  | VString s => s
  end.

(** [v < 0] and [v > 0]: the other operand is a number, so the comparison is
    numeric, and false on NaN. *)
Definition lt_zero (v : value) : bool :=
  match ToNumber v with
  | NaN => false
  | Infinity negative => negative
  | Finite q => Qltb q 0%Q
  end.

Definition gt_zero (v : value) : bool :=
  match ToNumber v with
  | NaN => false
  | Infinity negative => negb negative
  | Finite q => Qltb 0%Q q
  end.

(** [-v] *)
Definition neg (v : value) : value :=
  VNumber match ToNumber v with
          | NaN => NaN
          | Infinity negative => Infinity (negb negative)
          | Finite q => Finite (Qopp q)
          end.

(** [+v] *)
Definition plus (v : value) : value := VNumber (ToNumber v).

(** [a || b] *)
Definition or_else (a b : value) : value := if truthy a then a else b.

Definition isNaN (v : value) : bool :=
  match ToNumber v with NaN => true | _ => false end.

Definition isFinite (v : value) : bool :=
  match ToNumber v with Finite _ => true | _ => false end.

Definition Math_floor (v : value) : value :=
  VNumber match ToNumber v with
          | Finite q => Finite (inject_Z (Qfloor q))
          | n => n
          end.

(** [Array.prototype.join]: undefined and null elements print as the empty
    string, the others by [ToString]. *)
Definition join_item (v : value) : string :=
  match v with
  | VUndefined | VNull => ""
  | _ => ToString v
  end.

Fixpoint join (sep : string) (l : list value) : string :=
  match l with
  | [] => ""
  | [v] => join_item v
  | v :: rest => join_item v ++ sep ++ join sep rest
  end.

(** ** The write paths and the buffering protocol *)

Definition enable (c : Cursor) : result := Ok (set_enabled true c).

Definition disable (c : Cursor) : result := Ok (set_enabled false c).

(** [write(data, ...)]: [args] is the whole argument list, [data] its first
    element. *)
Definition write (args : list value) (c : Cursor) : result :=
  if buffering c
  then Ok (set_buffer (_buffer c ++ [args]) c)
  else Ok (stream_emit "data" (nth 0 args VUndefined) (stream_write args c)).

Definition _write (data : value) (c : Cursor) : result :=
  if enabled c then write [data] c else Ok c.

Definition buffer (c : Cursor) : result := Ok (set_buffering true c).

(** The callback [flush] maps over the buffer: the first entry that does not
    hold exactly one argument throws. *)
Fixpoint flush_map (buf : list (list value)) : error + list value :=
  match buf with
  | [] => inr []
  | args :: rest =>
      if negb (length args =? 1)%nat
      then inl (Error ("Unexpected args length: "
                        ++ decimal (Z.of_nat (length args))))
      else match flush_map rest with
           | inl e => inl e
           | inr l => inr (nth 0 args VUndefined :: l)
           end
  end.

Definition flush (c : Cursor) : result :=
  let c := set_buffering false c in
  match flush_map (_buffer c) with
  | inl e => Throw e c
  | inr l =>
      let output := join "" l in
      let c := set_buffer [] c in
      write [VString output] c
  end.

(** ** Helpers *)

Definition isUndefined (val : value) : bool :=
  typeof val =? "undefined".

Definition ucFirst (str : string) : string :=
  ucFirst_by (upper_first Upper) str.

Definition toAxis (val : value) : value :=
  if isUndefined val || isNaN val || negb (isFinite val)
  then num 1
  else Math_floor val.

(** ** Generated methods *)

(** The function the first loop puts on the prototype for a key of
    [movements] whose value prints as [code]. *)
Definition movement (code : string) (args : list value) (c : Cursor) : result :=
  let c' :=
    if (0 <? length args)%nat
    then join ";" (map toAxis args) ++ code
    else code in
  _write (VString (prefix ++ c')) c.

(** The function the second loop puts there for a key of [actions]. *)
Definition action (code : string) (c : Cursor) : result :=
  _write (VString (prefix ++ code)) c.

Inductive method : Type :=
| Movement (code : string)
| Action (code : string).

(** The generated method a name resolves to on the prototype: the loop over
    [actions] runs second, so its assignment is the one that stays. *)
Definition generated (name : string) : option method :=
  match lookup name actions with
  | Some v => Some (Action (ToString v))
  | None =>
      match lookup name movements with
      | Some v => Some (Movement (ToString v))
      | None => None
      end
  end.

Definition invoke (m : method) (args : list value) (c : Cursor) : result :=
  match m with
  | Movement code => movement code args c
  | Action code => action code c
  end.

(** [this.name(args)] for a name that only the tables can define; calling
    what is not there throws. *)
Definition call (name : string) (args : list value) (c : Cursor) : result :=
  match generated name with
  | Some m => invoke m args c
  | None => Throw (TypeError ("this." ++ name ++ " is not a function")) c
  end.

(** ** Compound operations *)

Definition move (x y : value) (c : Cursor) : result :=
  (if lt_zero y then call "moveUp" [neg y] c
   else if gt_zero y then call "moveDown" [y] c
   else Ok c) >>= fun c =>
  (if gt_zero x then call "forward" [x] c
   else if lt_zero x then call "backward" [neg x] c
   else Ok c).

Definition beep (c : Cursor) : result := _write (consts.beep K) c.

(** In [erase] and [delete], [this[methodName]] is read for a name made of
    "erase" or "delete" and a non-empty suffix (a truthy primitive does not
    print as the empty string).  No field of the controller and no
    hand-written method has such a name (see [derived_name_fresh]), so the
    property is there exactly when a table generated it. *)
Definition erase (type : value) (c : Cursor) : result :=
  let unknown :=
    emit "error" ("Unknown erase type: " ++ ToString type) c >>= Ok in
  if truthy type then
    if strict_eq type (VString "$") then call "eraseRight" [] c
    else if strict_eq type (VString "^") then call "eraseLeft" [] c
    else
      let methodName := "erase" ++ ucFirst ("" ++ ToString type) in
      match generated methodName with
      | Some m => invoke m [] c
      | None => unknown
      end
  else unknown.

Definition delete (type n : value) (c : Cursor) : result :=
  let unknown :=
    emit "error" ("Unknown delete type: " ++ ToString type) c >>= Ok in
  if truthy type then
    let methodName := "delete" ++ ucFirst ("" ++ ToString type) in
    match generated methodName with
    | Some m => invoke m [n] c
    | None => unknown
    end
  else unknown.

Definition insert (mode n : value) (c : Cursor) : result :=
  let n := or_else n (num 1) in
  if strict_eq mode (VBool true) then
    _write (VString (prefix ++ "4h")) c
  else if strict_eq mode (VBool false) then
    _write (VString (prefix ++ "l")) c
  else if strict_eq mode (VString "line") then
    _write (VString (prefix ++ ToString (plus n) ++ "L")) c
  else if strict_eq mode (VString "char") then
    _write (VString (prefix ++ ToString (plus n) ++ "@")) c
  else
    emit "error" ("Unknown insert type: " ++ ToString mode) c >>= Ok.

Definition save (withAttributes : value) (c : Cursor) : result :=
  if enabled c
  then write [if truthy withAttributes
              then consts.saveCursor codes
              else consts.savePosition codes] c
  else Ok c.

Definition restore (withAttributes : value) (c : Cursor) : result :=
  if enabled c
  then write [if truthy withAttributes
              then consts.restoreCursor codes
              else consts.restorePosition codes] c
  else Ok c.

(** ** Runs of the controller *)

(** One call of a public method. *)
Inductive op : Type :=
| Enable
| Disable
| Write (args : list value)
| GatedWrite (data : value)
| Buffer
| Flush
| Generated (name : string) (args : list value)
| Move (x y : value)
| Beep
| Erase (type : value)
| Delete (type n : value)
| Insert (mode n : value)
| Save (withAttributes : value)
| Restore (withAttributes : value).

Definition run (o : op) (c : Cursor) : result :=
  match o with
  | Enable => enable c
  | Disable => disable c
  | Write args => write args c
  | GatedWrite data => _write data c
  | Buffer => buffer c
  | Flush => flush c
  | Generated name args => call name args c
  | Move x y => move x y c
  | Beep => beep c
  | Erase type => erase type c
  | Delete type n => delete type n c
  | Insert mode n => insert mode n c
  | Save w => save w c
  | Restore w => restore w c
  end.

(** The states a controller goes through from its construction, as long as
    every call returns. *)
Inductive reachable : Cursor -> Prop :=
| reachable_new (s : stream_arg) (o : options_arg) (c : Cursor) :
    new_Cursor s o = New c -> reachable c
| reachable_run (o : op) (c c' : Cursor) :
    reachable c -> run o c = Ok c' -> reachable c'.

(** The data model's invariant: the buffer is non-empty only while
    [buffering] is true. *)
Definition buffer_invariant (c : Cursor) : Prop :=
  _buffer c <> [] -> buffering c = true.

(** ** Vocabulary of the properties *)

(** The names [this] already carries: the fields the constructor sets and
    the methods [lib/cursor.js] writes by hand. *)
Definition own_names : list string :=
  ["stream"; "enabled"; "buffering"; "_buffer"; "bold"; "italic"; "inverse";
   "underline"; "newlines"; "constructor"; "enable"; "disable"; "write";
   "_write"; "buffer"; "flush"; "move"; "beep"; "erase"; "delete"; "insert";
   "save"; "restore"].

(** The modes [insert] tests for. *)
Definition known_insert_mode (mode : value) : bool :=
  strict_eq mode (VBool true) || strict_eq mode (VBool false)
  || strict_eq mode (VString "line") || strict_eq mode (VString "char").

Definition is_none {A : Type} (o : option A) : bool :=
  match o with None => true | Some _ => false end.

(** An erase type no branch of [erase] serves: falsy, or neither "$" nor "^"
    and naming no generated method. *)
Definition unknown_erase (type : value) : bool :=
  negb (truthy type)
  || (negb (strict_eq type (VString "$"))
      && negb (strict_eq type (VString "^"))
      && is_none (generated ("erase" ++ ucFirst (ToString type)))).

Definition unknown_delete (type : value) : bool :=
  negb (truthy type)
  || is_none (generated ("delete" ++ ucFirst (ToString type))).

(** The spec's reading of [move(x, y)]: the primitive calls it stands for,
    the vertical one first. *)
Definition move_spec_calls (x y : value) : list (string * list value) :=
  (if lt_zero y then [("moveUp", [neg y])]
   else if gt_zero y then [("moveDown", [y])]
   else [])
  ++
  (if gt_zero x then [("forward", [x])]
   else if lt_zero x then [("backward", [neg x])]
   else []).

Fixpoint run_calls (calls : list (string * list value)) (c : Cursor) : result :=
  match calls with
  | [] => Ok c
  | (name, args) :: rest => call name args c >>= run_calls rest
  end.

(** The state a call leaves the controller in, whether it returned or
    threw. *)
Definition after (r : result) : Cursor :=
  match r with
  | Ok c => c
  | Throw _ c => c
  end.

(** Calls made one after the other by a caller that catches what they
    throw. *)
Definition run_all (ops : list op) (c : Cursor) : Cursor :=
  fold_left (fun c o => after (run o c)) ops c.

(** [write(d1); ...; write(dn)], each with one argument. *)
Fixpoint write_all (l : list value) (c : Cursor) : result :=
  match l with
  | [] => Ok c
  | d :: rest => write [d] c >>= write_all rest
  end.

(** A queued entry the callback of [flush] accepts: exactly one argument. *)
Definition single (args : list value) : bool := (length args =? 1)%nat.

(** [args[0]] of each queued entry. *)
Definition payloads (buf : list (list value)) : list value :=
  map (fun args => nth 0 args VUndefined) buf.

(** The [data] event [write] emits on the stream for an argument list. *)
Definition data_event (args : list value) : string * value :=
  ("data", nth 0 args VUndefined).

(** The methods that reach the stream only through the [enabled] test. *)
Definition is_gated (o : op) : bool :=
  match o with
  | Enable | Disable | Write _ | Buffer | Flush => false
  | _ => true
  end.

(** What a gated method does to the controller: a run of [write] calls with
    one argument, each made with [enabled] true. *)
Inductive gated_steps (c : Cursor) : Cursor -> Prop :=
| gated_here : gated_steps c c
| gated_write (d : value) (c1 c2 : Cursor) :
    gated_steps c c1 -> enabled c1 = true -> write [d] c1 = Ok c2 ->
    gated_steps c c2.

(** Two states agree on the attribute flags and on the stream's [isTTY]. *)
Definition same_attributes (c c' : Cursor) : Prop :=
  bold c' = bold c /\ italic c' = italic c /\ inverse c' = inverse c
  /\ underline c' = underline c /\ isTTY (stream c') = isTTY (stream c).

(** From [c] to [c'] the stream has received the calls [lw], each followed
    by its [data] event, and nothing else has been emitted on it. *)
Definition stream_received (lw : list (list value)) (c c' : Cursor) : Prop :=
  written (stream c') = (written (stream c) ++ lw)%list
  /\ emitted (stream c') = (emitted (stream c) ++ map data_event lw)%list.

(** The escape sequence of a movement with one magnitude. *)
Definition sequence (p : Z * string) : value :=
  VString (prefix ++ ToString (num (fst p)) ++ snd p).

(** ** The buffer invariant along normal returns *)

Lemma write_returns (args : list value) (c : Cursor) :
  exists c', write args c = Ok c'.
Proof.
  unfold write. destruct (buffering c); eauto.
Qed.

Lemma write_keeps_invariant (args : list value) (c c' : Cursor) :
  buffer_invariant c -> write args c = Ok c' -> buffer_invariant c'.
Proof.
  unfold write, buffer_invariant. intros Hinv Hw.
  destruct (buffering c) eqn:Hb; inversion Hw; subst; simpl; intros Hne.
  - exact Hb.
  - rewrite Hb. exact (Hinv Hne).
Qed.

Lemma _write_keeps_invariant (data : value) (c c' : Cursor) :
  buffer_invariant c -> _write data c = Ok c' -> buffer_invariant c'.
Proof.
  unfold _write. intros Hinv Hw. destruct (enabled c).
  - eapply write_keeps_invariant; eauto.
  - inversion Hw; subst; assumption.
Qed.

Lemma invoke_keeps_invariant (m : method) (args : list value) (c c' : Cursor) :
  buffer_invariant c -> invoke m args c = Ok c' -> buffer_invariant c'.
Proof.
  destruct m; simpl; unfold movement, action; apply _write_keeps_invariant.
Qed.

Lemma call_keeps_invariant (name : string) (args : list value) (c c' : Cursor) :
  buffer_invariant c -> call name args c = Ok c' -> buffer_invariant c'.
Proof.
  unfold call. destruct (generated name).
  - apply invoke_keeps_invariant.
  - discriminate.
Qed.

Lemma bind_Ok (r : result) (k : Cursor -> result) (c' : Cursor) :
  r >>= k = Ok c' -> exists c1, r = Ok c1 /\ k c1 = Ok c'.
Proof.
  destruct r; simpl; [eauto | discriminate].
Qed.

Lemma flush_returns_drained (c c' : Cursor) :
  flush c = Ok c' -> buffering c' = false /\ _buffer c' = [].
Proof.
  unfold flush. simpl.
  destruct (flush_map (_buffer c)); [discriminate |].
  unfold write; simpl. intros H; inversion H; subst; simpl; auto.
Qed.

Lemma flush_throws_keeps_buffer (c c' : Cursor) (e : error) :
  flush c = Throw e c' ->
  c' = set_buffering false c /\ _buffer c <> [].
Proof.
  unfold flush. simpl.
  destruct (flush_map (_buffer c)) eqn:Hm.
  - intros H; inversion H; subst. split; [reflexivity |].
    intros Hnil. rewrite Hnil in Hm. discriminate.
  - unfold write; simpl. discriminate.
Qed.

Lemma run_keeps_invariant (o : op) (c c' : Cursor) :
  buffer_invariant c -> run o c = Ok c' -> buffer_invariant c'.
Proof.
  intros Hinv Hrun. destruct o; simpl in Hrun.
  - inversion Hrun; subst; exact Hinv.
  - inversion Hrun; subst; exact Hinv.
  - eapply write_keeps_invariant; eauto.
  - eapply _write_keeps_invariant; eauto.
  - inversion Hrun; subst. intros _. reflexivity.
  - apply flush_returns_drained in Hrun as [_ Hnil].
    intros Hne. contradiction.
  - eapply call_keeps_invariant; eauto.
  - unfold move in Hrun. apply bind_Ok in Hrun as (c1 & Hy & Hx).
    assert (Hinv1 : buffer_invariant c1).
    { destruct (lt_zero y); [eapply call_keeps_invariant; eauto |].
      destruct (gt_zero y); [eapply call_keeps_invariant; eauto |].
      inversion Hy; subst; exact Hinv. }
    destruct (gt_zero x); [eapply call_keeps_invariant; eauto |].
    destruct (lt_zero x); [eapply call_keeps_invariant; eauto |].
    inversion Hx; subst; exact Hinv1.
  - eapply _write_keeps_invariant; eauto.
  - unfold erase in Hrun.
    repeat match type of Hrun with
           | (if ?b then _ else _) = _ => destruct b
           | match ?g with Some _ => _ | None => _ end = _ => destruct g
           end;
      try (eapply call_keeps_invariant; eassumption);
      try (eapply invoke_keeps_invariant; eassumption);
      discriminate Hrun.
  - unfold delete in Hrun.
    repeat match type of Hrun with
           | (if ?b then _ else _) = _ => destruct b
           | match ?g with Some _ => _ | None => _ end = _ => destruct g
           end;
      try (eapply invoke_keeps_invariant; eassumption);
      discriminate Hrun.
  - unfold insert in Hrun.
    repeat match type of Hrun with
           | (if ?b then _ else _) = _ => destruct b
           end;
      try (eapply _write_keeps_invariant; eassumption);
      discriminate Hrun.
  - unfold save in Hrun. destruct (enabled c).
    + eapply write_keeps_invariant; eauto.
    + inversion Hrun; subst; exact Hinv.
  - unfold restore in Hrun. destruct (enabled c).
    + eapply write_keeps_invariant; eauto.
    + inversion Hrun; subst; exact Hinv.
Qed.

Lemma new_Cursor_buffer_empty (s : stream_arg) (o : options_arg) (c : Cursor) :
  new_Cursor s o = New c -> _buffer c = [].
Proof.
  unfold new_Cursor. intros H.
  destruct (negb (typeof_stream s =? "object")); [discriminate |].
  destruct (typeof_stream_write s) as [e | t]; [discriminate |].
  destruct (negb (t =? "function")); [discriminate |].
  destruct s as [v | ob]; [discriminate |].
  destruct (on_is_function ob); [| discriminate].
  inversion H; subst; reflexivity.
Qed.

(** ** The gate *)

Lemma write_unbuffered (args : list value) (c : Cursor) :
  buffering c = false ->
  exists c', write args c = Ok c'
             /\ written (stream c') = (written (stream c) ++ [args])%list
             /\ _buffer c' = _buffer c.
Proof.
  intros Hb. unfold write. rewrite Hb.
  eexists; split; [reflexivity |]. simpl. auto.
Qed.

Lemma write_buffered (args : list value) (c : Cursor) :
  buffering c = true ->
  write args c = Ok (set_buffer (_buffer c ++ [args]) c).
Proof.
  intros Hb. unfold write. rewrite Hb. reflexivity.
Qed.

Lemma write_keeps_flags (args : list value) (c c' : Cursor) :
  write args c = Ok c' ->
  enabled c' = enabled c /\ buffering c' = buffering c.
Proof.
  unfold write. destruct (buffering c) eqn:Hb; intros H; inversion H; subst;
    simpl; auto.
Qed.

Lemma _write_disabled (data : value) (c : Cursor) :
  enabled c = false -> _write data c = Ok c.
Proof.
  intros He. unfold _write. rewrite He. reflexivity.
Qed.

Lemma _write_enabled (data : value) (c : Cursor) :
  enabled c = true -> _write data c = write [data] c.
Proof.
  intros He. unfold _write. rewrite He. reflexivity.
Qed.

(** C1. On a controller whose [enabled] flag is false, every generated
    movement or action method, [beep], and [insert] with a known mode return
    the controller as it was: nothing is written to the stream and nothing is
    queued, since all of them go through [_write], which does nothing.  The
    raw [write] still reaches the stream (when the controller is not
    buffering). *)
Theorem disabled_gate_writes_nothing (c : Cursor) :
  enabled c = false ->
  (forall data, _write data c = Ok c)
  /\ (forall m args, invoke m args c = Ok c)
  /\ (forall name m args, generated name = Some m -> call name args c = Ok c)
  /\ beep c = Ok c
  /\ (forall mode n, known_insert_mode mode = true -> insert mode n c = Ok c)
  /\ (forall args, buffering c = false ->
        exists c', write args c = Ok c'
                   /\ written (stream c') = (written (stream c) ++ [args])%list).
Proof.
  intros He.
  assert (Hw : forall data, _write data c = Ok c)
    by (intros; apply _write_disabled; exact He).
  assert (Hi : forall m args, invoke m args c = Ok c).
  { intros [code | code] args; simpl; unfold movement, action; apply Hw. }
  repeat split.
  - exact Hw.
  - exact Hi.
  - intros name m args Hg. unfold call. rewrite Hg. apply Hi.
  - unfold beep. apply Hw.
  - intros mode n Hk. unfold insert.
    unfold known_insert_mode in Hk.
    destruct (strict_eq mode (VBool true)); [apply Hw |].
    destruct (strict_eq mode (VBool false)); [apply Hw |].
    destruct (strict_eq mode (VString "line")); [apply Hw |].
    destruct (strict_eq mode (VString "char")); [apply Hw |].
    discriminate.
  - intros args Hb. destruct (write_unbuffered args c Hb) as (c' & Hc & Hs & _).
    exists c'. auto.
Qed.

(** ** enable and disable *)

(** C10. [enable()] and [disable()] set [enabled] to true and to false and
    change no other field of the controller: the stream, [buffering], the
    buffer, [newlines] and the attribute flags stay as they were, and the
    call returns the controller. *)
Theorem enable_disable_frame (c : Cursor) :
  (exists c', enable c = Ok c'
     /\ enabled c' = true
     /\ stream c' = stream c /\ buffering c' = buffering c
     /\ _buffer c' = _buffer c /\ newlines c' = newlines c
     /\ bold c' = bold c /\ italic c' = italic c
     /\ inverse c' = inverse c /\ underline c' = underline c
     /\ events c' = events c)
  /\
  (exists c', disable c = Ok c'
     /\ enabled c' = false
     /\ stream c' = stream c /\ buffering c' = buffering c
     /\ _buffer c' = _buffer c /\ newlines c' = newlines c
     /\ bold c' = bold c /\ italic c' = italic c
     /\ inverse c' = inverse c /\ underline c' = underline c
     /\ events c' = events c).
Proof.
  split; eexists; (split; [reflexivity |]); simpl; repeat split.
Qed.

(** ** Buffering *)

(** C2 (amended). From a non-buffering controller whose queue is empty,
    [buffer(); write('a'); write('b'); flush()] returns, the stream has
    received exactly one more [write] call, with the single argument 'ab',
    [buffering] is false and the buffer is empty.  [flush()] on an empty
    queue returns too, after one [write] of the empty string. *)
Theorem buffer_write_write_flush (c : Cursor) :
  (buffering c = false -> _buffer c = [] ->
   exists c',
     buffer c >>= write [VString "a"] >>= write [VString "b"] >>= flush = Ok c'
     /\ written (stream c') = (written (stream c) ++ [[VString "ab"]])%list
     /\ buffering c' = false
     /\ _buffer c' = [])
  /\
  (_buffer c = [] ->
   exists c',
     flush c = Ok c'
     /\ written (stream c') = (written (stream c) ++ [[VString ""]])%list
     /\ buffering c' = false
     /\ _buffer c' = []).
Proof.
  split.
  - intros Hb Hnil.
    unfold buffer, write, flush; simpl. rewrite Hnil. simpl.
    eexists; split; [reflexivity |]. simpl. auto.
  - intros Hnil. unfold flush; simpl. rewrite Hnil. simpl.
    unfold write; simpl.
    eexists; split; [reflexivity |]. simpl. auto.
Qed.

(** C3 (amended). Along every run whose calls all return, the buffer is
    non-empty only while [buffering] is true, and a [flush()] that returns
    leaves the buffer empty and [buffering] false.  A [flush()] that throws
    has already set [buffering] to false and leaves the queue as it was,
    non-empty: after it the invariant does not hold. *)
Theorem buffer_invariant_along_returns :
  (forall c, reachable c -> buffer_invariant c)
  /\ (forall c c', flush c = Ok c' -> buffering c' = false /\ _buffer c' = [])
  /\ (forall c e c', flush c = Throw e c' ->
        buffering c' = false /\ _buffer c' = _buffer c /\ _buffer c' <> []
        /\ ~ buffer_invariant c').
Proof.
  split; [| split].
  - intros c Hr. induction Hr as [s o c Hnew | o c c' Hr IH Hrun].
    + apply new_Cursor_buffer_empty in Hnew. intros Hne. contradiction.
    + eapply run_keeps_invariant; eauto.
  - intros c c' Hf. apply flush_returns_drained in Hf. exact Hf.
  - intros c e c' Hf. apply flush_throws_keeps_buffer in Hf as [-> Hne].
    repeat split; try reflexivity.
    + exact Hne.
    + intros Hinv. specialize (Hinv Hne). simpl in Hinv. discriminate.
Qed.

(** ** Unknown types *)

Lemma derived_name_fresh (s : string) :
  s <> "" ->
  ~ In ("erase" ++ s) own_names /\ ~ In ("delete" ++ s) own_names.
Proof.
  intros Hs. split; simpl; intros H;
    repeat (destruct H as [H | H]; [try discriminate H |]);
    try contradiction;
    inversion H; subst; apply Hs; reflexivity.
Qed.

Lemma ucFirst_nonempty (s : string) : s <> "" -> ucFirst s <> "".
Proof.
  destruct s as [| a rest]; [tauto |]. intros _. unfold ucFirst. simpl.
  destruct (is_ascii a) eqn:Ha; [discriminate |].
  apply (upper_first_proper Upper a rest Ha).
Qed.

(** C4 (the code throws). [erase(type)] and [delete(type, n)] for a type that
    is falsy or names no generated method, and [insert(mode, n)] for a mode
    other than true, false, 'line' and 'char', reach the call of [this.emit],
    which nothing defines: the call throws a TypeError and never returns the
    controller.  Nothing has been written or queued at the throw and no
    observer has been notified: the controller is as it was. *)
Theorem unknown_type_throws (c : Cursor) (type n : value) :
  (unknown_erase type = true ->
   erase type c = Throw (TypeError "this.emit is not a function") c)
  /\ (unknown_delete type = true ->
      delete type n c = Throw (TypeError "this.emit is not a function") c)
  /\ (known_insert_mode type = false ->
      insert type n c = Throw (TypeError "this.emit is not a function") c).
Proof.
  split; [| split].
  - unfold unknown_erase, erase. intros Hu.
    destruct (truthy type); [| reflexivity].
    destruct (strict_eq type (VString "$")); [simpl in Hu; discriminate Hu |].
    destruct (strict_eq type (VString "^")); [simpl in Hu; discriminate Hu |].
    change ("" ++ ToString type) with (ToString type).
    destruct (generated ("erase" ++ ucFirst (ToString type)));
      [simpl in Hu; discriminate Hu | reflexivity].
  - unfold unknown_delete, delete. intros Hu.
    destruct (truthy type); [| reflexivity].
    change ("" ++ ToString type) with (ToString type).
    destruct (generated ("delete" ++ ucFirst (ToString type)));
      [simpl in Hu; discriminate Hu | reflexivity].
  - unfold known_insert_mode, insert. intros Hu.
    destruct (strict_eq type (VBool true)); [simpl in Hu; discriminate Hu |].
    destruct (strict_eq type (VBool false)); [simpl in Hu; discriminate Hu |].
    destruct (strict_eq type (VString "line")); [simpl in Hu; discriminate Hu |].
    destruct (strict_eq type (VString "char")); [simpl in Hu; discriminate Hu |].
    reflexivity.
Qed.

(** ** save and restore *)

(** C5 (amended). [save(withAttributes)] and [restore(withAttributes)] act
    only when [enabled] is true, with the with-attributes code when
    [withAttributes] is truthy and the position-only code otherwise, and hand
    that code to the raw [write]: a controller that is not buffering writes
    it to the stream, a buffering one appends it to the buffer and leaves the
    stream alone. *)
Theorem save_restore_through_write (c : Cursor) (withAttributes : value) :
  let s := if truthy withAttributes
           then consts.saveCursor codes else consts.savePosition codes in
  let r := if truthy withAttributes
           then consts.restoreCursor codes else consts.restorePosition codes in
  (enabled c = false ->
   save withAttributes c = Ok c /\ restore withAttributes c = Ok c)
  /\ (enabled c = true -> buffering c = false ->
      save withAttributes c = Ok (stream_emit "data" s (stream_write [s] c))
      /\ restore withAttributes c =
         Ok (stream_emit "data" r (stream_write [r] c)))
  /\ (enabled c = true -> buffering c = true ->
      save withAttributes c = Ok (set_buffer (_buffer c ++ [[s]]) c)
      /\ restore withAttributes c = Ok (set_buffer (_buffer c ++ [[r]]) c)).
Proof.
  intros s r. unfold save, restore, write. split; [| split].
  - intros He. rewrite He. split; reflexivity.
  - intros He Hb. rewrite He, Hb. split; reflexivity.
  - intros He Hb. rewrite He, Hb. split; reflexivity.
Qed.

(** ** Axis normalization and movements *)

Lemma toAxis_number (v : value) : exists n, toAxis v = VNumber n.
Proof.
  unfold toAxis, num, Math_floor.
  destruct (isUndefined v || isNaN v || negb (isFinite v)); eauto.
Qed.

Lemma join_toAxis (sep : string) (args : list value) :
  join sep (map toAxis args)
  = String.concat sep (map (fun a => ToString (toAxis a)) args).
Proof.
  induction args as [| a rest IH]; [reflexivity |].
  simpl. destruct (toAxis_number a) as [n Hn]. rewrite Hn. simpl.
  destruct rest as [| b rest]; [reflexivity |].
  simpl in IH. simpl. rewrite IH. reflexivity.
Qed.

(** C6. [toAxis] gives 1 for [undefined], NaN and the infinities and the
    floor for every finite number: 3 for 3.7 and -4 for -3.7.  A movement
    method called without arguments emits [prefix + code]; called with
    arguments it emits the prefix, the normalized arguments joined by ';'
    and then the code.  On an enabled controller that is not buffering, what
    is emitted is one [write] call on the stream. *)
Theorem toAxis_movement (code : string) (c : Cursor) :
  toAxis VUndefined = num 1
  /\ toAxis (VNumber NaN) = num 1
  /\ (forall negative, toAxis (VNumber (Infinity negative)) = num 1)
  /\ (forall q, toAxis (VNumber (Finite q)) = num (Qfloor q))
  /\ toAxis (VNumber (Finite (37 # 10))) = num 3
  /\ toAxis (VNumber (Finite (-37 # 10))) = num (-4)
  /\ movement code [] c = _write (VString (prefix ++ code)) c
  /\ (forall args, args <> [] ->
      movement code args c =
      _write (VString (prefix
                       ++ String.concat ";"
                            (map (fun a => ToString (toAxis a)) args)
                       ++ code)) c)
  /\ (forall data, enabled c = true -> buffering c = false ->
      exists c', _write data c = Ok c'
                 /\ written (stream c') = (written (stream c) ++ [[data]])%list).
Proof.
  split; [reflexivity |]. split; [reflexivity |].
  split; [intros [|]; reflexivity |].
  split; [intros q; reflexivity |].
  split; [reflexivity |]. split; [reflexivity |]. split; [reflexivity |].
  split.
  - intros args Hne. unfold movement.
    destruct args as [| a rest]; [contradiction |].
    cbn [length Nat.ltb Nat.leb]. rewrite join_toAxis. reflexivity.
  - intros data He Hb. rewrite (_write_enabled data c He).
    destruct (write_unbuffered [data] c Hb) as (c' & Hw & Hs & _).
    exists c'. auto.
Qed.

(** ** Relative moves *)

Lemma bind_Ok_right (r : result) : r >>= Ok = r.
Proof.
  destruct r; reflexivity.
Qed.

Lemma bind_ext (r : result) (k1 k2 : Cursor -> result) :
  (forall c, k1 c = k2 c) -> r >>= k1 = r >>= k2.
Proof.
  intros H. destruct r; simpl; [apply H | reflexivity].
Qed.

Lemma bind_ext_on (r : result) (k1 k2 : Cursor -> result) :
  (forall c, r = Ok c -> k1 c = k2 c) -> r >>= k1 = r >>= k2.
Proof.
  intros H. destruct r; simpl; [apply H; reflexivity | reflexivity].
Qed.

Lemma run_calls_app (l1 l2 : list (string * list value)) (c : Cursor) :
  run_calls (l1 ++ l2) c = run_calls l1 c >>= run_calls l2.
Proof.
  revert c. induction l1 as [| [name args] rest IH]; intros c; simpl.
  - reflexivity.
  - destruct (call name args c) as [c1 | e c1]; simpl; [apply IH | reflexivity].
Qed.

Lemma run_calls_one (name : string) (args : list value) (c : Cursor) :
  run_calls [(name, args)] c = call name args c.
Proof.
  simpl. apply bind_Ok_right.
Qed.

(** C7. [move(x, y)] is the sequence of primitive calls the offset stands
    for, the vertical one first: [moveUp(-y)] for a negative [y],
    [moveDown(y)] for a positive one, then [forward(x)] for a positive [x]
    and [backward(-x)] for a negative one, and no call for a zero component.
    [move(3, -2)] is [moveUp(2)] then [forward(3)]: on an enabled controller
    it emits these two escape sequences, in that order, and nothing else
    (when the controller is not buffering, as two [write] calls on the
    stream); [move(0, 0)] calls nothing and leaves the controller as it
    was. *)
Theorem move_decomposes :
  (forall x y c, move x y c = run_calls (move_spec_calls x y) c)
  /\ move_spec_calls (num 3) (num (-2))
     = [("moveUp", [num 2]); ("forward", [num 3])]
  /\ move_spec_calls (num 0) (num 0) = []
  /\ (forall c, move (num 0) (num 0) c = Ok c)
  /\ (forall c up fwd,
        enabled c = true ->
        generated "moveUp" = Some (Movement up) ->
        generated "forward" = Some (Movement fwd) ->
        move (num 3) (num (-2)) c
        = write [VString (prefix ++ "2" ++ up)] c
            >>= write [VString (prefix ++ "3" ++ fwd)]
        /\ (buffering c = false ->
            exists c',
              move (num 3) (num (-2)) c = Ok c'
              /\ written (stream c') =
                 (written (stream c)
                  ++ [[VString (prefix ++ "2" ++ up)];
                      [VString (prefix ++ "3" ++ fwd)]])%list)).
Proof.
  split; [| split; [| split; [| split]]].
  - intros x y c. unfold move, move_spec_calls. rewrite run_calls_app.
    assert (Hv : run_calls (if lt_zero y then [("moveUp", [neg y])]
                            else if gt_zero y then [("moveDown", [y])]
                            else []) c
                 = if lt_zero y then call "moveUp" [neg y] c
                   else if gt_zero y then call "moveDown" [y] c
                   else Ok c).
    { destruct (lt_zero y); [apply run_calls_one |].
      destruct (gt_zero y); [apply run_calls_one | reflexivity]. }
    rewrite Hv. apply bind_ext. intros c1.
    destruct (gt_zero x); [symmetry; apply run_calls_one |].
    destruct (lt_zero x); [symmetry; apply run_calls_one | reflexivity].
  - reflexivity.
  - reflexivity.
  - intros c. reflexivity.
  - intros c up fwd He Hup Hfwd.
    assert (Hmove : move (num 3) (num (-2)) c
                    = write [VString (prefix ++ "2" ++ up)] c
                        >>= write [VString (prefix ++ "3" ++ fwd)]).
    { unfold move.
      change (lt_zero (num (-2))) with true.
      change (gt_zero (num 3)) with true. cbv iota.
      unfold call at 1. rewrite Hup. simpl invoke. unfold movement.
      rewrite (_write_enabled _ c He).
      apply bind_ext_on. intros c1 Hc1.
      apply write_keeps_flags in Hc1 as [He1 _]. rewrite He in He1.
      unfold call. rewrite Hfwd. simpl invoke. unfold movement.
      rewrite (_write_enabled _ c1 He1). reflexivity. }
    split; [exact Hmove |].
    intros Hb. rewrite Hmove.
    destruct (write_unbuffered [VString (prefix ++ "2" ++ up)] c Hb)
      as (c1 & Hw1 & Hs1 & _).
    rewrite Hw1. simpl bind.
    apply write_keeps_flags in Hw1 as [_ Hb1]. rewrite Hb in Hb1.
    destruct (write_unbuffered [VString (prefix ++ "3" ++ fwd)] c1 Hb1)
      as (c2 & Hw2 & Hs2 & _).
    exists c2. split; [exact Hw2 |].
    rewrite Hs2, Hs1. rewrite <- app_assoc. reflexivity.
Qed.

(** ** insert *)

(** C8. On an enabled controller, [insert(mode, n)] emits [prefix + '4h']
    for [mode === true], [prefix + 'l'] for [mode === false],
    [prefix + n + 'L'] for 'line' and [prefix + n + '@'] for 'char', with [n]
    replaced by 1 when it is falsy and read as a number:
    [insert('line', 3)] emits [prefix + '3L'].  What is emitted is handed to
    [write], which on a controller that is not buffering is one [write] call
    on the stream.  The count that is printed is the numeric value of [n]:
    [insert('char', true)] emits [prefix + '1@'], and a string count is
    printed as the number it reads as. *)
Theorem insert_sequences (c : Cursor) (n : value) :
  enabled c = true ->
  let count := ToString (plus (or_else n (num 1))) in
  insert (VBool true) n c = write [VString (prefix ++ "4h")] c
  /\ insert (VBool false) n c = write [VString (prefix ++ "l")] c
  /\ insert (VString "line") n c = write [VString (prefix ++ count ++ "L")] c
  /\ insert (VString "char") n c = write [VString (prefix ++ count ++ "@")] c
  /\ (truthy n = false -> count = "1")
  /\ insert (VString "line") (num 3) c = write [VString (prefix ++ "3L")] c
  /\ (buffering c = false ->
      forall data, exists c',
        write [data] c = Ok c'
        /\ written (stream c') = (written (stream c) ++ [[data]])%list)
  /\ count = NumberToString (ToNumber (or_else n (num 1)))
  /\ insert (VString "char") (VBool true) c = write [VString (prefix ++ "1@")] c
  /\ insert (VString "line") (VBool true) c = write [VString (prefix ++ "1L")] c
  /\ (forall s, s <> "" ->
      insert (VString "line") (VString s) c
      = write [VString (prefix ++ NumberToString (StringToNumber s) ++ "L")] c).
Proof.
  intros He count. unfold insert. simpl strict_eq. cbv iota.
  rewrite !(_write_enabled _ c He).
  repeat (split; [reflexivity |]).
  split.
  - intros Hn. unfold count, or_else. rewrite Hn. reflexivity.
  - split; [reflexivity |].
    split.
    + intros Hb data.
      destruct (write_unbuffered [data] c Hb) as (c' & Hw & Hs & _).
      exists c'. auto.
    + split; [reflexivity |]. split; [reflexivity |]. split; [reflexivity |].
      intros s Hs. apply String.eqb_neq in Hs.
      unfold or_else. change (truthy (VString s)) with (negb (s =? "")).
      rewrite Hs. rewrite (_write_enabled _ c He). reflexivity.
Qed.

(** ** Construction *)

(** C9 (amended). For a stream argument other than [null], the constructor
    throws its invalid-stream error exactly when [typeof stream] is not
    'object' or [stream.write] is not a function.  When construction
    succeeds and [options && options.enabled] is [undefined] (no options, or
    options without [enabled]), [enabled] is the boolean coercion of the
    stream's [isTTY]. *)
Theorem new_Cursor_checks_stream (s : stream_arg) (o : options_arg) :
  (s <> Primitive VNull ->
   (new_Cursor s o = Raised invalid_stream
    <-> (typeof_stream s =? "object") && exposes_write s = false))
  /\ (forall c, new_Cursor s o = New c ->
       options_and o opt_enabled = VUndefined ->
       enabled c = truthy (stream_isTTY s)).
Proof.
  split.
  - intros Hnull. unfold new_Cursor.
    destruct s as [v | ob].
    + destruct v as [| | b | x | str]; simpl;
        try (split; reflexivity).
      contradiction Hnull. reflexivity.
    + simpl. destruct (callable ob); simpl; [split; reflexivity |].
      destruct (write_is_function ob); simpl; [| split; reflexivity].
      destruct (on_is_function ob); split; discriminate.
  - intros c Hnew Hopt. unfold new_Cursor in Hnew.
    destruct (negb (typeof_stream s =? "object")); [discriminate |].
    destruct (typeof_stream_write s) as [e | t]; [discriminate |].
    destruct (negb (t =? "function")); [discriminate |].
    destruct s as [v | ob]; [discriminate |].
    destruct (on_is_function ob); [| discriminate].
    inversion Hnew; subst; simpl. rewrite Hopt. reflexivity.
Qed.

(** ** Further properties: the queue and [flush] *)

Lemma flush_map_single (buf : list (list value)) :
  forallb single buf = true -> flush_map buf = inr (payloads buf).
Proof.
  induction buf as [| args rest IH]; simpl; [reflexivity |].
  intros H. apply andb_true_iff in H as [Hs Hrest].
  unfold single in Hs. rewrite Hs. simpl. rewrite (IH Hrest). reflexivity.
Qed.

Lemma flush_map_first_bad (buf : list (list value)) (bad : list value) :
  find (fun args => negb (single args)) buf = Some bad ->
  flush_map buf
  = inl (Error ("Unexpected args length: " ++ decimal (Z.of_nat (length bad)))).
Proof.
  induction buf as [| args rest IH]; simpl; [discriminate |].
  unfold single at 1. destruct (length args =? 1)%nat eqn:Hs; simpl.
  - intros H. rewrite (IH H). reflexivity.
  - intros H. inversion H; subst. reflexivity.
Qed.

Lemma find_bad_none (buf : list (list value)) :
  find (fun args => negb (single args)) buf = None <-> forallb single buf = true.
Proof.
  induction buf as [| args rest IH]; simpl; [tauto |].
  destruct (single args); simpl; [exact IH | split; discriminate].
Qed.

Lemma join_strings (sep : string) (l : list string) :
  join sep (map VString l) = String.concat sep l.
Proof.
  induction l as [| a rest IH]; [reflexivity |].
  simpl. destruct rest as [| b rest]; [reflexivity |].
  simpl in IH. simpl. rewrite IH. reflexivity.
Qed.

Lemma payloads_singletons (l : list value) :
  payloads (map (fun v => [v]) l) = l.
Proof.
  unfold payloads. induction l as [| v rest IH]; simpl; [reflexivity |].
  f_equal. exact IH.
Qed.

Lemma singletons_single (l : list value) :
  forallb single (map (fun v => [v]) l) = true.
Proof.
  induction l as [| v rest IH]; simpl; [reflexivity | exact IH].
Qed.

Lemma write_all_buffered (l : list value) (c : Cursor) :
  buffering c = true ->
  write_all l c = Ok (set_buffer (_buffer c ++ map (fun v => [v]) l) c).
Proof.
  revert c. induction l as [| d rest IH]; intros c Hb; simpl.
  - rewrite app_nil_r. destruct c; reflexivity.
  - rewrite (write_buffered [d] c Hb). simpl bind.
    rewrite IH by exact Hb. simpl. rewrite <- app_assoc. reflexivity.
Qed.

Lemma flush_returns_when_single (c : Cursor) :
  forallb single (_buffer c) = true -> exists c', flush c = Ok c'.
Proof.
  intros Hs. unfold flush. simpl. rewrite (flush_map_single _ Hs).
  apply write_returns.
Qed.

(** X1. [flush()] is not gated and does not look at [buffering]: whenever
    every queued entry holds exactly one argument, it returns, the stream
    receives exactly one more [write] call, whose payload is the queued
    payloads joined in insertion order, the queue is empty and [buffering]
    false afterwards, and [enabled] is as before. *)
Theorem flush_writes_queue_in_order (c : Cursor) :
  forallb single (_buffer c) = true ->
  exists c',
    flush c = Ok c'
    /\ written (stream c')
       = (written (stream c) ++ [[VString (join "" (payloads (_buffer c)))]])%list
    /\ emitted (stream c')
       = (emitted (stream c)
          ++ [("data", VString (join "" (payloads (_buffer c))))])%list
    /\ _buffer c' = []
    /\ buffering c' = false
    /\ enabled c' = enabled c.
Proof.
  intros Hs. unfold flush. simpl. rewrite (flush_map_single _ Hs).
  unfold write. simpl. eexists. split; [reflexivity |]. simpl. auto 6.
Qed.

(** X2. [flush()] throws exactly when some queued entry does not hold exactly
    one argument.  The error names the length of the first such entry; the
    stream has received nothing, the queue is as it was and [buffering] has
    been set to false. *)
Theorem flush_throws_on_first_bad_entry (c : Cursor) :
  ((exists e c', flush c = Throw e c') <-> forallb single (_buffer c) = false)
  /\ (forall bad,
        find (fun args => negb (single args)) (_buffer c) = Some bad ->
        flush c
        = Throw (Error ("Unexpected args length: "
                        ++ decimal (Z.of_nat (length bad))))
                (set_buffering false c)).
Proof.
  assert (Hbad : forall bad,
             find (fun args => negb (single args)) (_buffer c) = Some bad ->
             flush c
             = Throw (Error ("Unexpected args length: "
                             ++ decimal (Z.of_nat (length bad))))
                     (set_buffering false c)).
  { intros bad Hf. unfold flush. simpl.
    rewrite (flush_map_first_bad _ _ Hf). reflexivity. }
  split; [| exact Hbad].
  split.
  - intros (e & c' & Hf).
    destruct (forallb single (_buffer c)) eqn:Hs; [| reflexivity].
    destruct (flush_returns_when_single c Hs) as (c1 & Hok).
    rewrite Hok in Hf. discriminate.
  - intros Hs.
    destruct (find (fun args => negb (single args)) (_buffer c)) as [bad |] eqn:Hf.
    + eauto.
    + apply find_bad_none in Hf. rewrite Hf in Hs. discriminate.
Qed.

Lemma write_all_unbuffered (l : list value) (c : Cursor) :
  buffering c = false ->
  exists c',
    write_all l c = Ok c'
    /\ written (stream c') = (written (stream c) ++ map (fun v => [v]) l)%list
    /\ buffering c' = false
    /\ _buffer c' = _buffer c.
Proof.
  revert c. induction l as [| d rest IH]; intros c Hb; simpl.
  - exists c. rewrite app_nil_r. auto.
  - destruct (write_unbuffered [d] c Hb) as (c1 & Hw & Hs & Hq).
    rewrite Hw. simpl bind.
    apply write_keeps_flags in Hw as [_ Hb1]. rewrite Hb in Hb1.
    destruct (IH c1 Hb1) as (c' & Hall & Hs' & Hb' & Hq').
    exists c'. split; [exact Hall |].
    rewrite Hs', Hs, Hq', Hq, <- app_assoc. auto.
Qed.

(** X3. Buffering collapses writes: on a controller that is not buffering
    and has an empty queue, [write(d1); ...; write(dn)] makes one stream
    [write] call per payload, whereas [buffer(); write(d1); ...; write(dn);
    flush()] makes a single call whose payload is the payloads joined in
    order (for strings, their concatenation), and leaves the controller not
    buffering with an empty queue. *)
Theorem buffering_collapses_writes (c : Cursor) (l : list value) :
  buffering c = false -> _buffer c = [] ->
  (exists c1,
     write_all l c = Ok c1
     /\ written (stream c1)
        = (written (stream c) ++ map (fun v => [v]) l)%list)
  /\ (exists c2,
       buffer c >>= write_all l >>= flush = Ok c2
       /\ written (stream c2)
          = (written (stream c) ++ [[VString (join "" l)]])%list
       /\ _buffer c2 = []
       /\ buffering c2 = false)
  /\ (forall ss, l = map VString ss -> join "" l = String.concat "" ss).
Proof.
  intros Hb Hq. split; [| split].
  - destruct (write_all_unbuffered l c Hb) as (c1 & Hw & Hs & _).
    exists c1. auto.
  - unfold buffer. simpl bind.
    rewrite (write_all_buffered l (set_buffering true c) eq_refl). simpl bind.
    simpl _buffer. rewrite Hq. simpl app.
    unfold flush. simpl.
    rewrite (flush_map_single _ (singletons_single l)).
    rewrite payloads_singletons.
    unfold write. simpl. eexists. split; [reflexivity |]. simpl. auto.
  - intros ss ->. apply join_strings.
Qed.

(** ** Further properties: what the gated methods can do *)

Lemma after_bind (r : result) (k : Cursor -> result) :
  after (r >>= k)
  = match r with Ok c1 => after (k c1) | Throw _ c1 => c1 end.
Proof.
  destruct r; reflexivity.
Qed.

Lemma gated_steps_trans (a b c : Cursor) :
  gated_steps a b -> gated_steps b c -> gated_steps a c.
Proof.
  intros Hab Hbc. induction Hbc as [| d c1 c2 _ IH He Hw].
  - exact Hab.
  - exact (gated_write a d c1 c2 IH He Hw).
Qed.

Lemma _write_steps (data : value) (c : Cursor) :
  exists c', _write data c = Ok c' /\ gated_steps c c'.
Proof.
  unfold _write. destruct (enabled c) eqn:He.
  - destruct (write_returns [data] c) as [c' Hw].
    exists c'. split; [exact Hw |].
    exact (gated_write c data c c' (gated_here c) He Hw).
  - exists c. split; [reflexivity | apply gated_here].
Qed.

Lemma invoke_steps (m : method) (args : list value) (c : Cursor) :
  exists c', invoke m args c = Ok c' /\ gated_steps c c'.
Proof.
  destruct m; simpl; unfold movement, action; apply _write_steps.
Qed.

Lemma call_steps (name : string) (args : list value) (c : Cursor) :
  gated_steps c (after (call name args c)).
Proof.
  unfold call. destruct (generated name) as [m |].
  - destruct (invoke_steps m args c) as (c' & -> & Hs). exact Hs.
  - apply gated_here.
Qed.

Lemma emit_steps (name message : string) (c : Cursor) :
  gated_steps c (after (emit name message c >>= Ok)).
Proof.
  exact (gated_here c).
Qed.

Ltac gated_leaf :=
  first
    [ apply call_steps
    | apply emit_steps
    | apply gated_here
    | match goal with
      | |- gated_steps ?c (after (_write ?d ?c)) =>
          let c' := fresh "c'" in
          let Hs := fresh "Hs" in
          destruct (_write_steps d c) as (c' & -> & Hs); exact Hs
      | |- gated_steps ?c (after (invoke ?m ?a ?c)) =>
          let c' := fresh "c'" in
          let Hs := fresh "Hs" in
          destruct (invoke_steps m a c) as (c' & -> & Hs); exact Hs
      end ].

Lemma run_gated (o : op) (c : Cursor) :
  is_gated o = true -> gated_steps c (after (run o c)).
Proof.
  destruct o; simpl; try discriminate; intros _.
  - gated_leaf.
  - gated_leaf.
  - unfold move. rewrite after_bind.
    assert (Hy : gated_steps c
                   (after (if lt_zero y then call "moveUp" [neg y] c
                           else if gt_zero y then call "moveDown" [y] c
                           else Ok c))).
    { destruct (lt_zero y); [gated_leaf |]. destruct (gt_zero y); gated_leaf. }
    destruct (if lt_zero y then call "moveUp" [neg y] c
              else if gt_zero y then call "moveDown" [y] c
              else Ok c) as [c1 | e c1]; simpl in Hy; [| exact Hy].
    apply (gated_steps_trans c c1); [exact Hy |].
    destruct (gt_zero x); [gated_leaf |]. destruct (lt_zero x); gated_leaf.
  - unfold beep. gated_leaf.
  - unfold erase.
    destruct (truthy type); [| gated_leaf].
    destruct (strict_eq type (VString "$")); [gated_leaf |].
    destruct (strict_eq type (VString "^")); [gated_leaf |].
    destruct (generated _); gated_leaf.
  - unfold delete.
    destruct (truthy type); [| gated_leaf].
    destruct (generated _); gated_leaf.
  - unfold insert.
    destruct (strict_eq mode (VBool true)); [gated_leaf |].
    destruct (strict_eq mode (VBool false)); [gated_leaf |].
    destruct (strict_eq mode (VString "line")); [gated_leaf |].
    destruct (strict_eq mode (VString "char")); gated_leaf.
  - unfold save. destruct (enabled c) eqn:He; [| gated_leaf].
    destruct (write_returns
                [if truthy withAttributes
                 then consts.saveCursor codes
                 else consts.savePosition codes] c) as [c' Hw].
    rewrite Hw. exact (gated_write c _ c c' (gated_here c) He Hw).
  - unfold restore. destruct (enabled c) eqn:He; [| gated_leaf].
    destruct (write_returns
                [if truthy withAttributes
                 then consts.restoreCursor codes
                 else consts.restorePosition codes] c) as [c' Hw].
    rewrite Hw. exact (gated_write c _ c c' (gated_here c) He Hw).
Qed.

Lemma write_effect (args : list value) (c c' : Cursor) :
  write args c = Ok c' ->
  enabled c' = enabled c /\ buffering c' = buffering c /\ same_attributes c c'
  /\ (buffering c = true ->
      stream c' = stream c /\ _buffer c' = (_buffer c ++ [args])%list)
  /\ (buffering c = false ->
      stream_received [args] c c' /\ _buffer c' = _buffer c).
Proof.
  unfold write, same_attributes, stream_received.
  destruct (buffering c) eqn:Hb; intros H; inversion H; subst; simpl;
    repeat split; auto; discriminate.
Qed.

Lemma stream_received_nil (c : Cursor) : stream_received [] c c.
Proof.
  unfold stream_received. simpl. rewrite !app_nil_r. auto.
Qed.

Lemma stream_received_same (c c' : Cursor) :
  stream c' = stream c -> stream_received [] c c'.
Proof.
  intros H. unfold stream_received. rewrite H. simpl. rewrite !app_nil_r. auto.
Qed.

Lemma stream_received_app (l1 l2 : list (list value)) (a b c : Cursor) :
  stream_received l1 a b -> stream_received l2 b c ->
  stream_received (l1 ++ l2) a c.
Proof.
  unfold stream_received. intros [Hw1 He1] [Hw2 He2].
  rewrite Hw2, He2, Hw1, He1, map_app, <- !app_assoc. auto.
Qed.

Lemma same_attributes_refl (c : Cursor) : same_attributes c c.
Proof.
  unfold same_attributes. auto.
Qed.

Lemma same_attributes_trans (a b c : Cursor) :
  same_attributes a b -> same_attributes b c -> same_attributes a c.
Proof.
  unfold same_attributes. intros (H1 & H2 & H3 & H4 & H5) (G1 & G2 & G3 & G4 & G5).
  rewrite G1, G2, G3, G4, G5. auto.
Qed.

Lemma gated_steps_flags (c c' : Cursor) :
  gated_steps c c' ->
  enabled c' = enabled c /\ buffering c' = buffering c /\ same_attributes c c'.
Proof.
  induction 1 as [| d c1 c2 _ (IHe & IHb & IHa) He Hw].
  - auto using same_attributes_refl.
  - apply write_effect in Hw as (He' & Hb' & Ha' & _).
    rewrite He', Hb'. eauto using same_attributes_trans.
Qed.

Lemma gated_steps_log (c c' : Cursor) :
  gated_steps c c' ->
  exists lw lb,
    stream_received lw c c' /\ _buffer c' = (_buffer c ++ lb)%list.
Proof.
  induction 1 as [| d c1 c2 Hs (lw & lb & IHs & IHq) He Hw].
  - exists [], []. rewrite app_nil_r. auto using stream_received_nil.
  - apply write_effect in Hw as (_ & _ & _ & Hon & Hoff).
    destruct (buffering c1) eqn:Hb.
    + destruct (Hon eq_refl) as [Hst Hq].
      exists lw, (lb ++ [[d]])%list. split.
      * rewrite <- (app_nil_r lw).
        eapply stream_received_app; [exact IHs |].
        apply stream_received_same. exact Hst.
      * rewrite Hq, IHq, <- app_assoc. reflexivity.
    + destruct (Hoff eq_refl) as [Hst Hq].
      exists (lw ++ [[d]])%list, lb. split.
      * eapply stream_received_app; eauto.
      * rewrite Hq. exact IHq.
Qed.

Lemma gated_steps_buffering (c c' : Cursor) :
  gated_steps c c' -> buffering c = true -> stream c' = stream c.
Proof.
  intros Hs Hb. induction Hs as [| d c1 c2 Hs IH He Hw].
  - reflexivity.
  - apply gated_steps_flags in Hs as (_ & Hb1 & _). rewrite Hb in Hb1.
    apply write_effect in Hw as (_ & _ & _ & Hon & _).
    destruct (Hon Hb1) as [Hst _]. rewrite Hst. exact IH.
Qed.

Lemma gated_steps_disabled (c c' : Cursor) :
  gated_steps c c' -> enabled c = false ->
  stream c' = stream c /\ _buffer c' = _buffer c.
Proof.
  intros Hs Hoff. induction Hs as [| d c1 c2 Hs IH He Hw].
  - auto.
  - apply gated_steps_flags in Hs as (He1 & _). rewrite Hoff, He in He1.
    discriminate.
Qed.

Lemma flush_throws_when_bad (c : Cursor) :
  forallb single (_buffer c) = false ->
  exists e, flush c = Throw e (set_buffering false c).
Proof.
  intros Hs.
  destruct (find (fun args => negb (single args)) (_buffer c)) as [bad |] eqn:Hf.
  - unfold flush. simpl. rewrite (flush_map_first_bad _ _ Hf). eauto.
  - apply find_bad_none in Hf. rewrite Hf in Hs. discriminate.
Qed.

Lemma flush_effect (c : Cursor) :
  enabled (after (flush c)) = enabled c
  /\ buffering (after (flush c)) = false
  /\ same_attributes c (after (flush c))
  /\ exists lw, stream_received lw c (after (flush c)).
Proof.
  unfold flush. simpl. destruct (flush_map (_buffer c)) as [e | l]; simpl.
  - repeat split. exists []. apply stream_received_same. reflexivity.
  - unfold write. simpl. repeat split.
    exists [[VString (join "" l)]]. split; reflexivity.
Qed.

Lemma run_log (o : op) (c : Cursor) :
  exists lw, stream_received lw c (after (run o c)).
Proof.
  destruct (is_gated o) eqn:Hg.
  - destruct (gated_steps_log _ _ (run_gated o c Hg)) as (lw & _ & Hs & _).
    eauto.
  - destruct o; try discriminate Hg; simpl.
    + exists []. apply stream_received_same. reflexivity.
    + exists []. apply stream_received_same. reflexivity.
    + destruct (write_returns args c) as [c' Hw]. rewrite Hw. simpl.
      apply write_effect in Hw as (_ & _ & _ & Hon & Hoff).
      destruct (buffering c).
      * exists []. apply stream_received_same. apply Hon. reflexivity.
      * exists [args]. apply Hoff. reflexivity.
    + exists []. apply stream_received_same. reflexivity.
    + apply flush_effect.
Qed.

Lemma run_flags (o : op) (c : Cursor) :
  same_attributes c (after (run o c))
  /\ (o <> Enable -> o <> Disable -> enabled (after (run o c)) = enabled c)
  /\ (o <> Buffer -> o <> Flush -> buffering (after (run o c)) = buffering c).
Proof.
  destruct (is_gated o) eqn:Hg.
  - destruct (gated_steps_flags _ _ (run_gated o c Hg)) as (He & Hb & Ha). auto.
  - destruct o; try discriminate Hg; simpl;
      try (repeat split; auto; intros; congruence).
    + destruct (write_returns args c) as [c' Hw]. rewrite Hw. simpl.
      apply write_effect in Hw as (He & Hb & Ha & _). auto.
    + destruct (flush_effect c) as (He & _ & Ha & _).
      repeat split; try apply Ha; auto. intros; congruence.
Qed.

Lemma run_while_buffering (o : op) (c : Cursor) :
  buffering c = true -> o <> Flush ->
  stream (after (run o c)) = stream c /\ buffering (after (run o c)) = true.
Proof.
  intros Hb Hnf. destruct (is_gated o) eqn:Hg.
  - split.
    + exact (gated_steps_buffering _ _ (run_gated o c Hg) Hb).
    + destruct (gated_steps_flags _ _ (run_gated o c Hg)) as (_ & Hb' & _).
      rewrite Hb'. exact Hb.
  - destruct o; try discriminate Hg; simpl; auto.
    + rewrite (write_buffered args c Hb). simpl. auto.
    + contradiction Hnf. reflexivity.
Qed.

Lemma forallb_single_app (b l : list (list value)) :
  forallb single b = false -> forallb single (b ++ l) = false.
Proof.
  intros H. rewrite forallb_app, H. reflexivity.
Qed.

Lemma run_keeps_bad_entry (o : op) (c : Cursor) :
  forallb single (_buffer c) = false ->
  forallb single (_buffer (after (run o c))) = false.
Proof.
  intros Hs. destruct (is_gated o) eqn:Hg.
  - destruct (gated_steps_log _ _ (run_gated o c Hg)) as (lw & lb & _ & Hq).
    rewrite Hq. apply forallb_single_app. exact Hs.
  - destruct o; try discriminate Hg; simpl; try exact Hs.
    + destruct (write_returns args c) as [c' Hw]. rewrite Hw. simpl.
      apply write_effect in Hw as (_ & _ & _ & Hon & Hoff).
      destruct (buffering c).
      * destruct (Hon eq_refl) as [_ Hq]. rewrite Hq.
        apply forallb_single_app. exact Hs.
      * destruct (Hoff eq_refl) as [_ Hq]. rewrite Hq. exact Hs.
    + destruct (flush_throws_when_bad c Hs) as [e He]. rewrite He. exact Hs.
Qed.

Lemma run_all_cons (o : op) (rest : list op) (c : Cursor) :
  run_all (o :: rest) c = run_all rest (after (run o c)).
Proof.
  reflexivity.
Qed.

(** X4. While the controller is buffering, nothing but [flush()] reaches the
    stream: after any calls of the other methods (raw writes, generated
    methods, [move], [erase], [delete], [insert], [save], [restore], [beep],
    [enable], [disable], [buffer]), whether they return or throw, the stream
    has received no call and no event, and the controller is still
    buffering. *)
Theorem buffering_holds_the_stream (ops : list op) (c : Cursor) :
  buffering c = true ->
  Forall (fun o => o <> Flush) ops ->
  stream (run_all ops c) = stream c /\ buffering (run_all ops c) = true.
Proof.
  revert c. induction ops as [| o rest IH]; intros c Hb Hall.
  - auto.
  - inversion Hall as [| o' rest' Ho Hrest]; subst.
    destruct (run_while_buffering o c Hb Ho) as [Hst Hb'].
    destruct (IH _ Hb' Hrest) as [Hst' Hb''].
    rewrite run_all_cons, Hst', Hb''. auto.
Qed.

(** X5. A disabled controller is inert under every gated method, not only
    the generated ones: after any calls of [_write], generated methods,
    [move], [beep], [erase], [delete], [insert], [save] and [restore],
    whether they return or throw, the stream and the queue are as they were
    and the controller is still disabled. *)
Theorem disabled_controller_is_inert (ops : list op) (c : Cursor) :
  enabled c = false ->
  forallb is_gated ops = true ->
  stream (run_all ops c) = stream c
  /\ _buffer (run_all ops c) = _buffer c
  /\ buffering (run_all ops c) = buffering c
  /\ enabled (run_all ops c) = false.
Proof.
  revert c. induction ops as [| o rest IH]; intros c Hoff Hall.
  - auto.
  - simpl in Hall. apply andb_true_iff in Hall as [Ho Hrest].
    pose proof (run_gated o c Ho) as Hs.
    destruct (gated_steps_disabled _ _ Hs Hoff) as [Hst Hq].
    destruct (gated_steps_flags _ _ Hs) as (He & Hb & _).
    rewrite Hoff in He.
    destruct (IH _ He Hrest) as (Hst' & Hq' & Hb' & He').
    rewrite run_all_cons, Hst', Hq', Hb', He', Hst, Hq, Hb. auto.
Qed.

(** X6. Each flag has its own methods: whatever a call does and whether it
    returns or throws, [enabled] changes only in [enable()] and [disable()],
    [buffering] only in [buffer()] and [flush()], and no method of
    [lib/cursor.js] changes the attribute flags [bold], [italic], [inverse],
    [underline] or the stream's [isTTY]. *)
Theorem flags_have_their_methods (ops : list op) (c : Cursor) :
  same_attributes c (run_all ops c)
  /\ (Forall (fun o => o <> Enable /\ o <> Disable) ops ->
      enabled (run_all ops c) = enabled c)
  /\ (Forall (fun o => o <> Buffer /\ o <> Flush) ops ->
      buffering (run_all ops c) = buffering c).
Proof.
  revert c. induction ops as [| o rest IH]; intros c.
  - simpl. auto using same_attributes_refl.
  - destruct (run_flags o c) as (Ha & He & Hb).
    destruct (IH (after (run o c))) as (Ha' & He' & Hb').
    rewrite run_all_cons.
    split; [eapply same_attributes_trans; eauto |].
    split; intros Hall; inversion Hall as [| o' rest' [H1 H2] Hrest]; subst.
    + rewrite (He' Hrest). auto.
    + rewrite (Hb' Hrest). auto.
Qed.

(** X7. Whatever is called, the [write] calls the controller makes on the
    stream and the events it emits on it match one to one: the events it
    adds are [data] events, as many as the calls it adds, and the i-th of
    them carries the first argument of the i-th call. *)
Theorem writes_are_announced (ops : list op) (c : Cursor) :
  exists lw, stream_received lw c (run_all ops c).
Proof.
  revert c. induction ops as [| o rest IH]; intros c.
  - exists []. apply stream_received_nil.
  - destruct (run_log o c) as [l1 H1].
    destruct (IH (after (run o c))) as [l2 H2].
    rewrite run_all_cons.
    exists (l1 ++ l2)%list. eapply stream_received_app; eauto.
Qed.

(** X8. A failed [flush()] is permanent: once the queue holds an entry that
    does not have exactly one argument, no call removes it, so after any
    further calls, returning or throwing, [flush()] throws again and the
    stream receives none of the queued payloads. *)
Theorem bad_entry_blocks_flush_forever (ops : list op) (c : Cursor) :
  forallb single (_buffer c) = false ->
  forallb single (_buffer (run_all ops c)) = false
  /\ exists e,
       flush (run_all ops c) = Throw e (set_buffering false (run_all ops c)).
Proof.
  revert c. induction ops as [| o rest IH]; intros c Hs.
  - split; [exact Hs | apply flush_throws_when_bad; exact Hs].
  - rewrite run_all_cons. apply IH. apply run_keeps_bad_entry. exact Hs.
Qed.

(** ** Further properties: axis values and relative moves *)

Lemma Qltb_true (a b : Q) : Qltb a b = true -> (a <= b)%Q.
Proof.
  unfold Qltb. intros H. apply negb_true_iff in H.
  apply Qlt_le_weak, Qnot_le_lt. intros Hle.
  apply Qle_bool_iff in Hle. rewrite Hle in H. discriminate.
Qed.

Lemma Qfloor_nonneg (q : Q) : (0 <= q)%Q -> (0 <= Qfloor q)%Z.
Proof.
  intros H. apply Qfloor_resp_le in H. exact H.
Qed.

(** X9. On [undefined], [null], a boolean, a number or a string, [toAxis]
    returns a finite integer: the floor of the argument's numeric value when
    that is finite, and 1 when it is NaN or infinite ([undefined] reads as
    NaN).  Normalizing twice is normalizing once.  So [null] and [false]
    become 0 and [true] becomes 1, through their numeric value. *)
Theorem toAxis_is_an_integer (v : value) :
  (exists z, toAxis v = num z)
  /\ toAxis (toAxis v) = toAxis v
  /\ toAxis VNull = num 0
  /\ toAxis (VBool false) = num 0
  /\ toAxis (VBool true) = num 1
  /\ toAxis v
     = num match ToNumber v with
           | Finite q => Qfloor q
           | _ => 1%Z
           end.
Proof.
  assert (Hfloor : toAxis v
                   = num match ToNumber v with
                         | Finite q => Qfloor q
                         | _ => 1%Z
                         end).
  { unfold toAxis, isNaN, isFinite, Math_floor.
    destruct v as [| | b | n | s]; try reflexivity.
    - destruct b; reflexivity.
    - destruct n; reflexivity.
    - simpl. destruct (StringToNumber s); reflexivity. }
  assert (Hz : exists z, toAxis v = num z).
  { unfold toAxis, isNaN, isFinite, Math_floor.
    destruct (isUndefined v); simpl; [exists 1%Z; reflexivity |].
    destruct (ToNumber v) as [| negative | q]; simpl;
      eexists; unfold num; reflexivity. }
  split; [exact Hz |]. split; [| repeat split; exact Hfloor].
  destruct Hz as [z Hz]. rewrite Hz.
  change (toAxis (num z)) with (num (Qfloor (inject_Z z))).
  rewrite Qfloor_Z. reflexivity.
Qed.

Lemma toAxis_of_negated (y : value) :
  lt_zero y = true -> exists z, (0 <= z)%Z /\ toAxis (neg y) = num z.
Proof.
  unfold lt_zero, neg. destruct (ToNumber y) as [| negative | q]; intros H.
  - discriminate.
  - subst negative. exists 1%Z. split; [lia | reflexivity].
  - exists (Qfloor (- q)). split; [| reflexivity].
    apply Qfloor_nonneg. apply Qltb_true in H.
    apply Qopp_le_compat in H. exact H.
Qed.

Lemma toAxis_of_positive (y : value) :
  gt_zero y = true -> exists z, (0 <= z)%Z /\ toAxis y = num z.
Proof.
  unfold gt_zero, toAxis, isNaN, isFinite, Math_floor.
  destruct (isUndefined y); simpl; [exists 1%Z; split; [lia | reflexivity] |].
  destruct (ToNumber y) as [| negative | q]; intros H; simpl.
  - discriminate.
  - exists 1%Z. split; [lia | reflexivity].
  - exists (Qfloor q). split; [| reflexivity].
    apply Qfloor_nonneg, Qltb_true. exact H.
Qed.

Lemma call_movement_one (name code : string) (arg : value) (z : Z) (c : Cursor) :
  generated name = Some (Movement code) ->
  toAxis arg = num z ->
  enabled c = true ->
  call name [arg] c = write [VString (prefix ++ ToString (num z) ++ code)] c.
Proof.
  intros Hg Hz He. unfold call. rewrite Hg. simpl invoke. unfold movement.
  simpl. rewrite Hz. rewrite (_write_enabled _ c He). reflexivity.
Qed.

Lemma write_all_app (l1 l2 : list value) (c : Cursor) :
  write_all (l1 ++ l2) c = write_all l1 c >>= write_all l2.
Proof.
  revert c. induction l1 as [| d rest IH]; intros c; simpl; [reflexivity |].
  destruct (write [d] c) as [c1 | e c1]; simpl; [apply IH | reflexivity].
Qed.

Lemma write_all_keeps_enabled (l : list value) (c c' : Cursor) :
  write_all l c = Ok c' -> enabled c' = enabled c.
Proof.
  revert c. induction l as [| d rest IH]; intros c; simpl.
  - intros H; inversion H; reflexivity.
  - intros H. apply bind_Ok in H as (c1 & Hw & Hrest).
    apply write_keeps_flags in Hw as [He _]. rewrite <- He. exact (IH _ Hrest).
Qed.

(** X10. With the four directions defined as movements, [move(x, y)] on an
    enabled controller emits at most two escape sequences, each one of the
    four direction codes with one integer magnitude, and the magnitude is
    never negative, whatever the offsets.  With offsets that are not numbers
    (NaN, or [undefined] as in a call without arguments) it emits nothing and
    leaves the controller as it was. *)
Theorem move_magnitudes_are_not_negative
        (x y : value) (c : Cursor) (up down fwd back : string) :
  enabled c = true ->
  generated "moveUp" = Some (Movement up) ->
  generated "moveDown" = Some (Movement down) ->
  generated "forward" = Some (Movement fwd) ->
  generated "backward" = Some (Movement back) ->
  (exists l : list (Z * string),
      (length l <= 2)%nat
      /\ Forall (fun p => (0 <= fst p)%Z /\ In (snd p) [up; down; fwd; back]) l
      /\ move x y c = write_all (map sequence l) c)
  /\ (ToNumber x = NaN -> ToNumber y = NaN -> move x y c = Ok c).
Proof.
  intros He Hup Hdown Hfwd Hback. split.
  - assert (Hv : exists lv,
               (length lv <= 1)%nat
               /\ Forall (fun p => (0 <= fst p)%Z
                                   /\ In (snd p) [up; down; fwd; back]) lv
               /\ forall c1, enabled c1 = true ->
                    (if lt_zero y then call "moveUp" [neg y] c1
                     else if gt_zero y then call "moveDown" [y] c1
                     else Ok c1) = write_all (map sequence lv) c1).
    { destruct (lt_zero y) eqn:Hlt.
      - destruct (toAxis_of_negated y Hlt) as (z & Hz & Hax).
        exists [(z, up)]. split; [simpl; lia |].
        split; [constructor; [simpl; auto | constructor] |].
        intros c1 He1. simpl. rewrite bind_Ok_right.
        apply call_movement_one; assumption.
      - destruct (gt_zero y) eqn:Hgt.
        + destruct (toAxis_of_positive y Hgt) as (z & Hz & Hax).
          exists [(z, down)]. split; [simpl; lia |].
          split; [constructor; [simpl; auto | constructor] |].
          intros c1 He1. simpl. rewrite bind_Ok_right.
          apply call_movement_one; assumption.
        + exists []. split; [simpl; lia |]. split; [constructor |].
          intros; reflexivity. }
    assert (Hh : exists lh,
               (length lh <= 1)%nat
               /\ Forall (fun p => (0 <= fst p)%Z
                                   /\ In (snd p) [up; down; fwd; back]) lh
               /\ forall c1, enabled c1 = true ->
                    (if gt_zero x then call "forward" [x] c1
                     else if lt_zero x then call "backward" [neg x] c1
                     else Ok c1) = write_all (map sequence lh) c1).
    { destruct (gt_zero x) eqn:Hgt.
      - destruct (toAxis_of_positive x Hgt) as (z & Hz & Hax).
        exists [(z, fwd)]. split; [simpl; lia |].
        split; [constructor; [simpl; auto | constructor] |].
        intros c1 He1. simpl. rewrite bind_Ok_right.
        apply call_movement_one; assumption.
      - destruct (lt_zero x) eqn:Hlt.
        + destruct (toAxis_of_negated x Hlt) as (z & Hz & Hax).
          exists [(z, back)]. split; [simpl; lia |].
          split; [constructor; [simpl; auto 6 | constructor] |].
          intros c1 He1. simpl. rewrite bind_Ok_right.
          apply call_movement_one; assumption.
        + exists []. split; [simpl; lia |]. split; [constructor |].
          intros; reflexivity. }
    destruct Hv as (lv & Hlv & Hfv & Hv). destruct Hh as (lh & Hlh & Hfh & Hh).
    exists (lv ++ lh)%list. split; [rewrite length_app; lia |].
    split; [apply Forall_app; auto |].
    unfold move. rewrite (Hv c He), map_app, write_all_app.
    apply bind_ext_on. intros c1 Hc1.
    apply Hh. rewrite (write_all_keeps_enabled _ _ _ Hc1). exact He.
  - intros Hx Hy. unfold move, lt_zero, gt_zero. rewrite Hx, Hy. reflexivity.
Qed.

(** ** Further properties: dispatch by name, counts and options *)

Lemma toUpperCase_facts (a : ascii) :
  toUpperCase (toUpperCase a) = toUpperCase a
  /\ (toUpperCase a = "$"%char -> a = "$"%char)
  /\ (toUpperCase a = "^"%char -> a = "^"%char)
  /\ (is_ascii a = true -> is_ascii (toUpperCase a) = true).
Proof.
  destruct a as [[] [] [] [] [] [] [] []]; vm_compute;
    repeat split; intros H; try reflexivity; discriminate H.
Qed.

Lemma ucFirst_idempotent (s : string) : ucFirst (ucFirst s) = ucFirst s.
Proof.
  unfold ucFirst. destruct s as [| a rest]; simpl; [reflexivity |].
  destruct (is_ascii a) eqn:Ha.
  - destruct (toUpperCase_facts a) as (H & _ & _ & Hasc).
    simpl. rewrite (Hasc Ha), H. reflexivity.
  - apply (upper_first_stable Upper a rest Ha).
Qed.

Lemma ucFirst_keeps_symbols (s : string) :
  s <> "$" -> s <> "^" -> ucFirst s <> "$" /\ ucFirst s <> "^".
Proof.
  intros H1 H2. unfold ucFirst.
  destruct s as [| a rest]; simpl; [split; discriminate |].
  destruct (is_ascii a) eqn:Ha.
  - destruct (toUpperCase_facts a) as (_ & Hd & Hc & _).
    split; intros H; inversion H; subst.
    + apply H1. rewrite (Hd H3). reflexivity.
    + apply H2. rewrite (Hc H3). reflexivity.
  - destruct (upper_first_proper Upper a rest Ha) as (_ & Hd & Hc). auto.
Qed.

Lemma erase_by_name (s : string) (m : method) (c : Cursor) :
  s <> "" -> s <> "$" -> s <> "^" ->
  generated ("erase" ++ ucFirst s) = Some m ->
  erase (VString s) c = invoke m [] c.
Proof.
  intros H0 H1 H2 Hg. unfold erase.
  change (truthy (VString s)) with (negb (s =? "")).
  change (strict_eq (VString s) (VString "$")) with (s =? "$").
  change (strict_eq (VString s) (VString "^")) with (s =? "^").
  change ("" ++ ToString (VString s)) with s.
  apply String.eqb_neq in H0, H1, H2. rewrite H0, H1, H2.
  cbv beta iota zeta delta [negb]. rewrite Hg. reflexivity.
Qed.

(** X11. [erase(type)] finds its method by name whatever the case of the
    type's first letter: for a string other than '$' and '^' that names a
    generated method, [erase(type)] and [erase] of the capitalized type both
    call that method without arguments, so a movement emits its bare code;
    '$' and '^' call [eraseRight()] and [eraseLeft()]. *)
Theorem erase_dispatches_by_name (s : string) (m : method) (c : Cursor) :
  s <> "" -> s <> "$" -> s <> "^" ->
  generated ("erase" ++ ucFirst s) = Some m ->
  erase (VString s) c = invoke m [] c
  /\ erase (VString (ucFirst s)) c = invoke m [] c
  /\ (forall code, m = Movement code ->
      invoke m [] c = _write (VString (prefix ++ code)) c)
  /\ erase (VString "$") c = call "eraseRight" [] c
  /\ erase (VString "^") c = call "eraseLeft" [] c.
Proof.
  intros H0 H1 H2 Hg.
  split; [apply erase_by_name; assumption |].
  split.
  - destruct (ucFirst_keeps_symbols s H1 H2) as [H1' H2'].
    apply erase_by_name;
      [apply ucFirst_nonempty; assumption | assumption | assumption |].
    rewrite ucFirst_idempotent. exact Hg.
  - split; [intros code ->; reflexivity |]. split; reflexivity.
Qed.

(** X12. [delete(type, n)] always forwards its count, also when it is left
    out: for a type that names a generated movement, an enabled controller
    emits the prefix, the normalized count and the code, so [delete(type)]
    emits a count of 1, whereas the movement called directly without
    arguments emits the bare code.  The case of the type's first letter does
    not matter. *)
Theorem delete_forwards_its_count (s code : string) (n : value) (c : Cursor) :
  s <> "" ->
  generated ("delete" ++ ucFirst s) = Some (Movement code) ->
  enabled c = true ->
  delete (VString s) n c
  = write [VString (prefix ++ ToString (toAxis n) ++ code)] c
  /\ delete (VString (ucFirst s)) n c = delete (VString s) n c
  /\ delete (VString s) VUndefined c = write [VString (prefix ++ "1" ++ code)] c
  /\ movement code [] c = write [VString (prefix ++ code)] c.
Proof.
  intros H0 Hg He.
  assert (Hd : forall t k, t <> "" ->
             generated ("delete" ++ ucFirst t) = Some (Movement code) ->
             delete (VString t) k c
             = write [VString (prefix ++ ToString (toAxis k) ++ code)] c).
  { intros t k Ht Hgt. unfold delete.
    change (truthy (VString t)) with (negb (t =? "")).
    change ("" ++ ToString (VString t)) with t.
    apply String.eqb_neq in Ht. rewrite Ht.
    cbv beta iota zeta delta [negb]. rewrite Hgt. simpl invoke.
    unfold movement. simpl. destruct (toAxis_number k) as [x Hx].
    rewrite Hx. simpl. rewrite (_write_enabled _ c He). reflexivity. }
  split; [apply Hd; assumption |].
  split.
  - rewrite (Hd s n H0 Hg). apply Hd; [apply ucFirst_nonempty; exact H0 |].
    rewrite ucFirst_idempotent. exact Hg.
  - split; [rewrite (Hd s VUndefined H0 Hg); reflexivity |].
    unfold movement. simpl. apply _write_enabled. exact He.
Qed.

Lemma integer_prints_decimal (z : Z) :
  (Z.abs z <= 2 ^ 53)%Z -> NumberToString (Finite (inject_Z z)) = decimal z.
Proof.
  intros Hz. unfold NumberToString, is_integer.
  change (Qnum (inject_Z z)) with z. change (Zpos (Qden (inject_Z z))) with 1%Z.
  apply Z.leb_le in Hz.
  rewrite Qfloor_Z, Z.mod_1_r, Z.eqb_refl, andb_true_l, Hz. reflexivity.
Qed.

(** X13. [insert] prints the count as it is given, without the axis
    normalization of the movements: on an enabled controller, for a number
    [n] other than 0 and NaN, [insert('line', n)] and [insert('char', n)] emit
    the prefix, [n] printed as a number and 'L' or '@', so an integer of
    magnitude at most 2^53 is emitted as its decimal digits, with its sign
    when negative; with the modes [true] and [false] the count is not looked
    at. *)
Theorem insert_prints_count_as_given (n : number) (c : Cursor) :
  enabled c = true ->
  truthy (VNumber n) = true ->
  insert (VString "line") (VNumber n) c
  = write [VString (prefix ++ NumberToString n ++ "L")] c
  /\ insert (VString "char") (VNumber n) c
     = write [VString (prefix ++ NumberToString n ++ "@")] c
  /\ (forall z, n = Finite (inject_Z z) -> (Z.abs z <= 2 ^ 53)%Z ->
      insert (VString "line") (VNumber n) c
      = write [VString (prefix ++ decimal z ++ "L")] c)
  /\ (forall b k, insert (VBool b) k c = insert (VBool b) VUndefined c).
Proof.
  intros He Hn.
  assert (Hl : insert (VString "line") (VNumber n) c
               = write [VString (prefix ++ NumberToString n ++ "L")] c).
  { unfold insert, or_else. rewrite Hn. simpl strict_eq. cbv iota.
    apply _write_enabled. exact He. }
  split; [exact Hl |]. split.
  - unfold insert, or_else. rewrite Hn. simpl strict_eq. cbv iota.
    apply _write_enabled. exact He.
  - split.
    + intros z -> Hz. rewrite Hl, (integer_prints_decimal z Hz). reflexivity.
    + intros [|] k; reflexivity.
Qed.

Lemma typeof_undefined (v : value) :
  v <> VUndefined -> (typeof v =? "undefined") = false.
Proof.
  destruct v; intros H; try reflexivity. contradiction H. reflexivity.
Qed.

(** X14. A controller that has been constructed was given an object that is
    not a function and has [write] and [on] methods; it starts with an empty
    queue, the four attribute flags false and no newline counted.
    [buffering] is the boolean coercion of [options && options.buffering].
    An [enabled] option that is not [undefined] decides [enabled] whatever
    the stream's [isTTY]; and options that are a falsy value other than
    [undefined] ([null], [false], 0, the empty string) give a controller that
    is disabled and not buffering, whatever the stream's [isTTY]. *)
Theorem new_Cursor_initial_state
        (s : stream_arg) (o : options_arg) (c : Cursor) :
  new_Cursor s o = New c ->
  (exists ob,
      s = Object ob /\ callable ob = false /\ write_is_function ob = true
      /\ on_is_function ob = true /\ stream c = state ob)
  /\ _buffer c = []
  /\ (bold c = false /\ italic c = false /\ inverse c = false
      /\ underline c = false)
  /\ newlines c = 0
  /\ buffering c = truthy (options_and o opt_buffering)
  /\ (options_and o opt_enabled <> VUndefined ->
      enabled c = truthy (options_and o opt_enabled))
  /\ (forall v, o = OptPrimitive v -> v <> VUndefined -> truthy v = false ->
      enabled c = false /\ buffering c = false).
Proof.
  unfold new_Cursor. intros Hnew.
  destruct s as [v | ob].
  - destruct v; simpl in Hnew; discriminate Hnew.
  - simpl in Hnew.
    destruct (callable ob) eqn:Hc; simpl in Hnew; [discriminate |].
    destruct (write_is_function ob) eqn:Hw; simpl in Hnew; [| discriminate].
    destruct (on_is_function ob) eqn:Hon; [| discriminate].
    inversion Hnew; subst; clear Hnew. simpl.
    split; [exists ob; auto |].
    do 4 (split; [auto |]).
    split.
    + intros Hne. rewrite (typeof_undefined _ Hne). reflexivity.
    + intros v -> Hne Hf. simpl. rewrite Hf.
      rewrite (typeof_undefined _ Hne), Hf. auto.
Qed.

End Controller.

(** ** Runs on the sample data *)

Local Abbreviation S := sample_StringToNumber.
Local Abbreviation F := sample_FractionToString.
Local Abbreviation K := sample_consts.
Local Abbreviation U := sample_case_mapping.

Lemma sample_cursor_reachable : reachable S F K U sample_cursor.
Proof.
  apply reachable_new with (s := Object tty) (o := no_options). reflexivity.
Qed.

Lemma sample_buffering_reachable : reachable S F K U sample_buffering.
Proof.
  apply reachable_run with (o := Buffer) (c := sample_cursor).
  - exact sample_cursor_reachable.
  - reflexivity.
Qed.

Lemma sample_buffered_reachable : reachable S F K U sample_buffered.
Proof.
  apply reachable_run
    with (o := Write [VString "a"; VString "utf8"]) (c := sample_buffering).
  - exact sample_buffering_reachable.
  - reflexivity.
Qed.

(** [new Cursor(null)]: [typeof null] is 'object', so the test goes on to read
    [null.write], which throws a TypeError of the engine's instead of the
    constructor's own error. *)
Lemma new_Cursor_null (o : options_arg) :
  new_Cursor (Primitive VNull) o
  = Raised (TypeError "Cannot read properties of null (reading 'write')").
Proof.
  reflexivity.
Qed.

(** C1, on [new Cursor(tty, {enabled: false})]: [moveUp(2)], [beep()] and
    [insert('line', 3)] leave the controller untouched, [write('x')] reaches
    the stream. *)
Lemma disabled_gate_writes_nothing_witness :
  enabled sample_disabled = false
  /\ call S F K "moveUp" [num 2] sample_disabled = Ok sample_disabled
  /\ beep K sample_disabled = Ok sample_disabled
  /\ insert S F K (VString "line") (num 3) sample_disabled = Ok sample_disabled
  /\ exists c', write [VString "x"] sample_disabled = Ok c'
                /\ written (stream c') = [[VString "x"]].
Proof.
  destruct (disabled_gate_writes_nothing S F K sample_disabled eq_refl)
    as (_ & _ & Hcall & Hbeep & Hinsert & Hwrite).
  split; [reflexivity |].
  split; [apply (Hcall "moveUp" (Movement "A")); reflexivity |].
  split; [exact Hbeep |].
  split; [apply Hinsert; reflexivity |].
  exact (Hwrite [VString "x"] eq_refl).
Defined.

(** C2, on [new Cursor(tty)]. *)
Lemma buffer_write_write_flush_witness :
  (exists c',
     buffer sample_cursor >>= write [VString "a"] >>= write [VString "b"]
       >>= flush F = Ok c'
     /\ written (stream c') = [[VString "ab"]]
     /\ buffering c' = false
     /\ _buffer c' = [])
  /\
  (exists c',
     flush F sample_cursor = Ok c'
     /\ written (stream c') = [[VString ""]]
     /\ buffering c' = false
     /\ _buffer c' = []).
Proof.
  destruct (buffer_write_write_flush F sample_cursor) as [Hrun Hempty].
  split.
  - apply Hrun; reflexivity.
  - apply Hempty. reflexivity.
Defined.

(** C2 as stated fails on the non-buffering controller a failed [flush()]
    leaves behind: its queue still holds the two-argument entry, so the
    [flush()] that ends [buffer(); write('a'); write('b'); flush()] throws
    again and the stream receives nothing. *)
Lemma stale_queue_blocks_flush :
  flush F sample_buffered
  = Throw (Error "Unexpected args length: 2") sample_stale
  /\ buffering sample_stale = false
  /\ exists c',
       buffer sample_stale >>= write [VString "a"] >>= write [VString "b"]
         >>= flush F
       = Throw (Error "Unexpected args length: 2") c'
       /\ written (stream c') = [].
Proof.
  split; [reflexivity |]. split; [reflexivity |].
  eexists. split; reflexivity.
Qed.

(** C3, on [new Cursor(tty).buffer().write('a', 'utf8')]. *)
Lemma buffer_invariant_along_returns_witness :
  reachable S F K U sample_buffered /\ buffer_invariant sample_buffered.
Proof.
  split.
  - exact sample_buffered_reachable.
  - exact (proj1 (buffer_invariant_along_returns S F K U)
                 sample_buffered sample_buffered_reachable).
Defined.

(** C3 as stated fails: after [buffer(); write('a', 'utf8')], [flush()]
    throws, and the controller it leaves has [buffering] false and the entry
    still in its buffer. *)
Lemma failed_flush_breaks_invariant :
  reachable S F K U sample_buffered
  /\ flush F sample_buffered
     = Throw (Error "Unexpected args length: 2")
             (set_buffering false sample_buffered)
  /\ buffering (set_buffering false sample_buffered) = false
  /\ _buffer (set_buffering false sample_buffered)
     = [[VString "a"; VString "utf8"]]
  /\ ~ buffer_invariant (set_buffering false sample_buffered).
Proof.
  split; [exact sample_buffered_reachable |].
  repeat (split; [reflexivity |]).
  intros Hinv. assert (Ht : false = true) by (apply Hinv; discriminate).
  discriminate Ht.
Qed.

(** C4, on [erase('bogus')], [delete('bogus', 2)] and [insert('nonsense')]
    on [new Cursor(tty)]. *)
Lemma unknown_type_throws_witness :
  erase S F K U (VString "bogus") sample_cursor
  = Throw (TypeError "this.emit is not a function") sample_cursor
  /\ delete S F K U (VString "bogus") (num 2) sample_cursor
     = Throw (TypeError "this.emit is not a function") sample_cursor
  /\ insert S F K (VString "nonsense") VUndefined sample_cursor
     = Throw (TypeError "this.emit is not a function") sample_cursor.
Proof.
  destruct (unknown_type_throws S F K U sample_cursor (VString "bogus") (num 2))
    as (Herase & Hdelete & _).
  destruct (unknown_type_throws S F K U sample_cursor (VString "nonsense") VUndefined)
    as (_ & _ & Hinsert).
  split; [exact (Herase eq_refl) |].
  split; [exact (Hdelete eq_refl) | exact (Hinsert eq_refl)].
Defined.

(** C5, on a disabled controller, on [new Cursor(tty)] and on the same after
    [buffer()]. *)
Lemma save_restore_through_write_witness :
  save K (VBool true) sample_disabled = Ok sample_disabled
  /\ (exists c', save K (VBool true) sample_cursor = Ok c'
                 /\ written (stream c') = [[VString (ESC ++ "7")]])
  /\ (exists c', restore K VUndefined sample_cursor = Ok c'
                 /\ written (stream c') = [[VString (ESC ++ "[u")]])
  /\ save K (VBool true) sample_buffering
     = Ok (set_buffer [[VString (ESC ++ "7")]] sample_buffering).
Proof.
  destruct (save_restore_through_write K sample_disabled (VBool true))
    as (Hoff & _ & _).
  destruct (save_restore_through_write K sample_cursor (VBool true))
    as (_ & Hsave & _).
  destruct (save_restore_through_write K sample_cursor VUndefined)
    as (_ & Hrestore & _).
  destruct (save_restore_through_write K sample_buffering (VBool true))
    as (_ & _ & Hqueue).
  split; [exact (proj1 (Hoff eq_refl)) |].
  split; [eexists; split; [exact (proj1 (Hsave eq_refl eq_refl)) | reflexivity] |].
  split; [eexists; split; [exact (proj2 (Hrestore eq_refl eq_refl)) | reflexivity] |].
  exact (proj1 (Hqueue eq_refl eq_refl)).
Defined.

(** C5 as stated fails: on an enabled controller that is buffering,
    [save(true)] puts its code in the buffer and the stream receives
    nothing. *)
Lemma save_while_buffering_is_queued :
  enabled sample_buffering = true
  /\ buffering sample_buffering = true
  /\ exists c',
       save K (VBool true) sample_buffering = Ok c'
       /\ written (stream c') = written (stream sample_buffering)
       /\ written (stream c') = []
       /\ _buffer c' = [[VString (ESC ++ "7")]].
Proof.
  split; [reflexivity |]. split; [reflexivity |].
  eexists. split; [reflexivity |]. repeat split.
Qed.

(** C6, on [goto(2, 3.7)]. *)
Lemma toAxis_movement_witness :
  movement S F K "H" [num 2; VNumber (Finite (37 # 10))] sample_cursor
  = _write (VString (ESC ++ "[2;3H")) sample_cursor
  /\ exists c', _write (VString (ESC ++ "[2;3H")) sample_cursor = Ok c'
                /\ written (stream c') = [[VString (ESC ++ "[2;3H")]].
Proof.
  destruct (toAxis_movement S F K "H" sample_cursor)
    as (_ & _ & _ & _ & _ & _ & _ & Hargs & Hwrite).
  split.
  - apply (Hargs [num 2; VNumber (Finite (37 # 10))]). discriminate.
  - exact (Hwrite (VString (ESC ++ "[2;3H")) eq_refl eq_refl).
Defined.

(** C7, on [new Cursor(tty).move(3, -2)]. *)
Lemma move_decomposes_witness :
  exists c',
    move S F K (num 3) (num (-2)) sample_cursor = Ok c'
    /\ written (stream c')
       = [[VString (ESC ++ "[2A")]; [VString (ESC ++ "[3C")]].
Proof.
  destruct (move_decomposes S F K) as (_ & _ & _ & _ & Hmove).
  exact (proj2 (Hmove sample_cursor "A" "C" eq_refl eq_refl eq_refl) eq_refl).
Defined.

(** C8, on [new Cursor(tty).insert(mode)] with no count. *)
Lemma insert_sequences_witness :
  enabled sample_cursor = true
  /\ insert S F K (VBool true) VUndefined sample_cursor
     = write [VString (ESC ++ "[4h")] sample_cursor
  /\ insert S F K (VString "char") VUndefined sample_cursor
     = write [VString (ESC ++ "[1@")] sample_cursor
  /\ insert S F K (VString "line") (num 3) sample_cursor
     = write [VString (ESC ++ "[3L")] sample_cursor
  /\ insert S F K (VString "char") (VBool true) sample_cursor
     = write [VString (ESC ++ "[1@")] sample_cursor.
Proof.
  destruct (insert_sequences S F K sample_cursor VUndefined eq_refl)
    as (Hon & _ & _ & Hchar & _ & Hline & _ & _ & Htrue & _).
  split; [reflexivity |].
  split; [exact Hon |].
  split; [exact Hchar |]. split; [exact Hline | exact Htrue].
Defined.

(** C9, on [new Cursor(tty)] and [new Cursor('stdout')]. *)
Lemma new_Cursor_checks_stream_witness :
  new_Cursor (Object tty) no_options = New sample_cursor
  /\ enabled sample_cursor = truthy (stream_isTTY (Object tty))
  /\ new_Cursor (Primitive (VString "stdout")) no_options
     = Raised invalid_stream.
Proof.
  destruct (new_Cursor_checks_stream (Object tty) no_options) as [_ Henabled].
  destruct (new_Cursor_checks_stream (Primitive (VString "stdout")) no_options)
    as [Hthrows _].
  split; [reflexivity |].
  split; [exact (Henabled sample_cursor eq_refl eq_refl) |].
  apply Hthrows; [discriminate | reflexivity].
Defined.

(** C9 as stated fails: a function that carries a [write] method exposes a
    write operation, and the constructor refuses it all the same, since its
    [typeof] is not 'object'. *)
Lemma callable_stream_is_refused :
  exposes_write (Object callable_writer) = true
  /\ typeof_stream (Object callable_writer) = "function"
  /\ new_Cursor (Object callable_writer) no_options = Raised invalid_stream.
Proof.
  repeat split.
Qed.

(** ** Further runs on the sample data *)

(** X1, on a queue of two one-argument entries. *)
Lemma flush_writes_queue_in_order_witness :
  exists c',
    flush F (set_buffer [[VString "a"]; [VString "b"]] sample_buffering) = Ok c'
    /\ written (stream c') = [[VString "ab"]]
    /\ _buffer c' = [].
Proof.
  destruct (flush_writes_queue_in_order
              F (set_buffer [[VString "a"]; [VString "b"]] sample_buffering)
              eq_refl)
    as (c' & Hf & Hw & _ & Hq & _).
  exists c'. split; [exact Hf |]. split; [exact Hw | exact Hq].
Defined.

(** X2, on [new Cursor(tty).buffer().write('a', 'utf8')]. *)
Lemma flush_throws_on_first_bad_entry_witness :
  flush F sample_buffered
  = Throw (Error "Unexpected args length: 2") (set_buffering false sample_buffered).
Proof.
  exact (proj2 (flush_throws_on_first_bad_entry F sample_buffered)
               [VString "a"; VString "utf8"] eq_refl).
Defined.

(** X3, on three writes to [new Cursor(tty)]. *)
Lemma buffering_collapses_writes_witness :
  (exists c1,
     write_all [VString "a"; VString "b"; VString "c"] sample_cursor = Ok c1
     /\ written (stream c1) = [[VString "a"]; [VString "b"]; [VString "c"]])
  /\ (exists c2,
        buffer sample_cursor
          >>= write_all [VString "a"; VString "b"; VString "c"]
          >>= flush F = Ok c2
        /\ written (stream c2) = [[VString "abc"]]).
Proof.
  destruct (buffering_collapses_writes
              F sample_cursor [VString "a"; VString "b"; VString "c"]
              eq_refl eq_refl)
    as ((c1 & H1 & W1) & (c2 & H2 & W2 & _) & _).
  split; [exists c1 | exists c2]; split; assumption.
Defined.

(** X4, on a buffering controller. *)
Lemma buffering_holds_the_stream_witness :
  stream (run_all S F K U
            [Move (num 3) (num (-2)); Save (VBool true);
             Write [VString "x"]; Erase (VString "$"); Disable]
            sample_buffering)
  = stream sample_buffering.
Proof.
  refine (proj1 (buffering_holds_the_stream S F K U _ sample_buffering eq_refl _)).
  repeat constructor; discriminate.
Defined.

(** X5, on a disabled controller. *)
Lemma disabled_controller_is_inert_witness :
  stream (run_all S F K U
            [Move (num 3) (num (-2)); Erase (VString "screen");
             Delete (VString "line") (num 2); Save (VBool true); Beep]
            sample_disabled)
  = stream sample_disabled
  /\ _buffer (run_all S F K U
                [Move (num 3) (num (-2)); Erase (VString "screen");
                 Delete (VString "line") (num 2); Save (VBool true); Beep]
                sample_disabled)
     = [].
Proof.
  destruct (disabled_controller_is_inert
              S F K U
              [Move (num 3) (num (-2)); Erase (VString "screen");
               Delete (VString "line") (num 2); Save (VBool true); Beep]
              sample_disabled eq_refl eq_refl)
    as (Hs & Hq & _).
  split; [exact Hs | exact Hq].
Defined.

(** X6, on calls that are neither [enable], [disable], [buffer] nor
    [flush]. *)
Lemma flags_have_their_methods_witness :
  enabled (run_all S F K U [Move (num 3) (num (-2)); Write [VString "x"]]
                   sample_cursor) = true
  /\ buffering (run_all S F K U [Move (num 3) (num (-2)); Write [VString "x"]]
                        sample_cursor) = false.
Proof.
  destruct (flags_have_their_methods
              S F K U [Move (num 3) (num (-2)); Write [VString "x"]] sample_cursor)
    as (_ & He & Hb).
  split; [apply He | apply Hb]; repeat constructor; discriminate.
Defined.

(** X8, on the controller a two-argument write has left. *)
Lemma bad_entry_blocks_flush_forever_witness :
  exists e c',
    flush F (run_all S F K U
               [Flush; Buffer; Write [VString "x"]; Move (num 3) (num (-2))]
               sample_buffered)
    = Throw e c'.
Proof.
  destruct (bad_entry_blocks_flush_forever
              S F K U [Flush; Buffer; Write [VString "x"]; Move (num 3) (num (-2))]
              sample_buffered eq_refl)
    as (_ & e & He).
  exists e. eexists. exact He.
Defined.

(** X10, on [move(-0.5, Infinity)]. *)
Lemma move_magnitudes_are_not_negative_witness :
  exists l : list (Z * string),
    (length l <= 2)%nat
    /\ Forall (fun p => (0 <= fst p)%Z /\ In (snd p) ["A"; "B"; "C"; "D"]) l
    /\ move S F K (VNumber (Finite (-1 # 2))) (VNumber (Infinity false))
            sample_cursor
       = write_all (map (sequence F K) l) sample_cursor.
Proof.
  exact (proj1 (move_magnitudes_are_not_negative
                  S F K (VNumber (Finite (-1 # 2))) (VNumber (Infinity false))
                  sample_cursor "A" "B" "C" "D"
                  eq_refl eq_refl eq_refl eq_refl eq_refl)).
Defined.

(** X11, on [erase('screen')] and [erase('Screen')]. *)
Lemma erase_dispatches_by_name_witness :
  erase S F K U (VString "screen") sample_cursor
  = invoke S F K (Action "2J") [] sample_cursor
  /\ erase S F K U (VString "Screen") sample_cursor
     = invoke S F K (Action "2J") [] sample_cursor.
Proof.
  assert (H0 : "screen" <> "") by discriminate.
  assert (H1 : "screen" <> "$") by discriminate.
  assert (H2 : "screen" <> "^") by discriminate.
  destruct (erase_dispatches_by_name
              S F K U "screen" (Action "2J") sample_cursor H0 H1 H2 eq_refl)
    as (Hl & Hu & _).
  split; [exact Hl | exact Hu].
Defined.

(** X12, on [delete('line')]. *)
Lemma delete_forwards_its_count_witness :
  delete S F K U (VString "line") VUndefined sample_cursor
  = write [VString (ESC ++ "[1M")] sample_cursor
  /\ movement S F K "M" [] sample_cursor
     = write [VString (ESC ++ "[M")] sample_cursor.
Proof.
  assert (H0 : "line" <> "") by discriminate.
  destruct (delete_forwards_its_count
              S F K U "line" "M" VUndefined sample_cursor H0 eq_refl eq_refl)
    as (_ & _ & Hd & Hm).
  split; [exact Hd | exact Hm].
Defined.

(** X13, on [insert('line', -3)]. *)
Lemma insert_prints_count_as_given_witness :
  insert S F K (VString "line") (num (-3)) sample_cursor
  = write [VString (ESC ++ "[-3L")] sample_cursor.
Proof.
  destruct (insert_prints_count_as_given
              S F K (Finite (inject_Z (-3))) sample_cursor eq_refl eq_refl)
    as (_ & _ & Hz & _).
  apply (Hz (-3)%Z); [reflexivity | vm_compute; discriminate].
Defined.

(** X14, on [new Cursor(tty, null)]. *)
Lemma new_Cursor_initial_state_witness :
  new_Cursor (Object tty) (OptPrimitive VNull) = New sample_disabled
  /\ enabled sample_disabled = false
  /\ buffering sample_disabled = false.
Proof.
  assert (Hnew : new_Cursor (Object tty) (OptPrimitive VNull) = New sample_disabled)
    by reflexivity.
  destruct (new_Cursor_initial_state _ _ _ Hnew) as (_ & _ & _ & _ & _ & _ & Hnull).
  split; [exact Hnew |].
  apply (Hnull VNull); [reflexivity | discriminate | reflexivity].
Defined.
